(** * Verification of the cryptocurrency dashboard component (src/app/page.tsx)

    The component [Home] keeps a small React state (listing data, favourites,
    flags, an error string and a timestamp), fetches listings with a timeout
    and retries, refreshes them on a timer, mirrors the favourites to
    localStorage and derives filtered views.  This development embeds those
    parts as Rocq definitions and proves the properties stated about them.

    Numbers: the numeric fields of a listing are JSON numbers.  Every finite
    double is a rational and the order of doubles is the order of the
    rationals they denote; the sign of the rounded difference [b - a] is the
    sign of the exact difference.  They are therefore modelled as [Q].
    Timestamps ([Date.now()], milliseconds) are modelled as [Z].
    Strings are sequences of 8-bit code units ([string]). *)

From Stdlib Require Import ZArith QArith List Sorting.Sorted Permutation Ascii String Lia.
From stdpp Require Import base gmap strings list pretty.

Local Open Scope Z_scope.
Local Open Scope string_scope.

(** ** Data model *)

(** [interface CryptoData] (page.tsx, lines 9-21). *)
Record CryptoData := mkCryptoData {
  id : string;
  symbol : string;
  name : string;
  image : string;
  current_price : Q;
  price_change_percentage_24h : Q;
  market_cap : Q;
  total_volume : Q;
  circulating_supply : Q;
  ath : Q;
  ath_date : string
}.

(** Constants (page.tsx, lines 23-29). *)
Definition MEME_COINS : list string :=
  ["dogecoin"; "shiba-inu"; "pepe"; "floki"; "bonk"].
Definition HOT_THRESHOLD : Q := 1000000000 # 1.
Definition NEW_THRESHOLD : Z := 30.
Definition FETCH_TIMEOUT : Z := 15000.
Definition RETRY_DELAY : Z := 3000.
Definition MAX_RETRIES : nat := 3.
Definition AUTO_REFRESH_INTERVAL : Z := 60000.

(** ** Array primitives used by the component *)

Module JSArray.

(** [arr.includes(x)] on an array of strings (SameValueZero on strings is
    string equality). *)
Definition includes (l : list string) (x : string) : bool :=
  existsb (String.eqb x) l.

(** [arr.filter(p)]. *)
Definition filter {A} (p : A -> bool) (l : list A) : list A := List.filter p l.

(** [arr.slice(a, b)] for [0 <= a <= b]. *)
Definition slice {A} (a b : nat) (l : list A) : list A := take (b - a) (drop a l).

(** Sign tests on the number returned by a comparator. *)
Definition is_positive (q : Q) : bool := (0 <? Qnum q)%Z.

(** [arr.sort(cmp)]: the sort is stable, and for a consistent comparator
    the result is the unique stable arrangement in which no element is
    followed by one that compares smaller.  It is computed here by stable
    insertion: [x], which precedes every element of the already sorted
    tail in the input, moves past [y] only when [cmp x y > 0]. *)
Fixpoint insert {A} (cmp : A -> A -> Q) (x : A) (l : list A) : list A :=
  match l with
  | [] => [x]
  | y :: l' => if is_positive (cmp x y) then y :: insert cmp x l' else x :: y :: l'
  end.

Fixpoint sort {A} (cmp : A -> A -> Q) (l : list A) : list A :=
  match l with
  | [] => []
  | x :: l' => insert cmp x (sort cmp l')
  end.

End JSArray.

(** ** Favourites (page.tsx, lines 151-157) *)

(** The updater passed to [setFavorites] by [toggleFavorite]. *)
Definition toggleFavorite (cryptoId : string) (prev : list string) : list string :=
  if JSArray.includes prev cryptoId
  then JSArray.filter (fun id' => negb (String.eqb id' cryptoId)) prev
  else prev ++ [cryptoId].

(** ** Views (page.tsx, lines 159-178) *)

(** Arrays are heap objects: [sort] reorders its receiver in place, while the
    spread [[...a]], [filter] and [slice] allocate a new array.  The heap maps
    array references to their contents. *)
Module Heap.

Definition ref := positive.
Abbreviation heap := (gmap positive (list CryptoData)).

Definition read (h : heap) (r : ref) : list CryptoData := default [] (h !! r).

Definition alloc (h : heap) (v : list CryptoData) : heap * ref :=
  let r := fresh (dom h) in (<[r := v]> h, r).

(** [[...a]] *)
Definition spread (h : heap) (r : ref) : heap * ref := alloc h (read h r).

(** [a.filter(p)] *)
Definition filter (p : CryptoData -> bool) (h : heap) (r : ref) : heap * ref :=
  alloc h (JSArray.filter p (read h r)).

(** [a.slice(i, j)] *)
Definition slice (i j : nat) (h : heap) (r : ref) : heap * ref :=
  alloc h (JSArray.slice i j (read h r)).

(** [a.sort(cmp)]: overwrites the receiver and returns it. *)
Definition sort (cmp : CryptoData -> CryptoData -> Q) (h : heap) (r : ref) : heap * ref :=
  (<[r := JSArray.sort cmp (read h r)]> h, r).

End Heap.

(** The comparator of the 'gainers' view:
    [(a, b) => b.price_change_percentage_24h - a.price_change_percentage_24h]. *)
Definition gainers_cmp (a b : CryptoData) : Q :=
  (price_change_percentage_24h b - price_change_percentage_24h a)%Q.

Section Views.

(** The 'new' view compares [new Date(crypto.ath_date)] with the date 30
    days before the moment of the call; [recent] stands for that test on
    an [ath_date] string. *)
Variable recent : string -> bool.

(** [filterCryptos(category)], reading the state variables [cryptoData]
    (an array reference [data]) and [favorites]. *)
Definition filterCryptos (favorites : list string) (category : string)
    (h : Heap.heap) (data : Heap.ref) : Heap.heap * Heap.ref :=
  if String.eqb category "favorites" then
    Heap.filter (fun crypto => JSArray.includes favorites (id crypto)) h data
  else if String.eqb category "hot" then
    Heap.filter (fun crypto => Qle_bool HOT_THRESHOLD (total_volume crypto)) h data
  else if String.eqb category "new" then
    Heap.filter (fun crypto => recent (ath_date crypto)) h data
  else if String.eqb category "gainers" then
    let '(h1, copy) := Heap.spread h data in
    let '(h2, sorted) := Heap.sort gainers_cmp h1 copy in
    Heap.slice 0 10 h2 sorted
  else if String.eqb category "meme" then
    Heap.filter (fun crypto => JSArray.includes MEME_COINS (id crypto)) h data
  else
    Heap.slice 0 10 h data.

(** The array a view evaluates to. *)
Definition view (favorites : list string) (category : string)
    (h : Heap.heap) (data : Heap.ref) : list CryptoData :=
  let '(h', r) := filterCryptos favorites category h data in Heap.read h' r.

End Views.

(** ** JSON text of an array of strings *)

Module JSON.

Definition dquote : ascii := "034".
Definition backslash : ascii := "092".

Definition hex_digit (n : N) : ascii :=
  if (n <? 10)%N then ascii_of_N (48 + n) else ascii_of_N (87 + n).

(** [UnicodeEscape]: a backslash, [u] and four lowercase hexadecimal
    digits. *)
Definition unicode_escape (n : N) : string :=
  String backslash (String "u" (String (hex_digit (n / 4096 mod 16))
    (String (hex_digit (n / 256 mod 16)) (String (hex_digit (n / 16 mod 16))
    (String (hex_digit (n mod 16)) ""))))).

(** [QuoteJSONString], one code unit: the seven two-character escapes,
    a unicode escape for the other control characters, and the character
    itself otherwise. *)
Definition quote_char (c : ascii) : string :=
  let n := N_of_ascii c in
  if (n =? 8)%N then String backslash "b"
  else if (n =? 9)%N then String backslash "t"
  else if (n =? 10)%N then String backslash "n"
  else if (n =? 12)%N then String backslash "f"
  else if (n =? 13)%N then String backslash "r"
  else if (n =? 34)%N then String backslash (String dquote "")
  else if (n =? 92)%N then String backslash (String backslash "")
  else if (n <? 32)%N then unicode_escape n
  else String c "".

Fixpoint quote_chars (s : string) : string :=
  match s with
  | EmptyString => ""
  | String c s' => quote_char c ++ quote_chars s'
  end.

Definition quote (s : string) : string :=
  String dquote (quote_chars s ++ String dquote "").

Fixpoint join_quoted (l : list string) : string :=
  match l with
  | [] => ""
  | [s] => quote s
  | s :: l' => quote s ++ "," ++ join_quoted l'
  end.

(** [JSON.stringify(a)] for an array of strings [a] (no indentation). *)
Definition stringify (l : list string) : string :=
  "[" ++ join_quoted l ++ "]".

(** [JSON.parse] restricted to texts that denote an array of strings.  The
    text is read left to right by a machine whose states are the positions
    of the JSON grammar. *)
Inductive pstate :=
| PStart                                          (* before the opening bracket *)
| PFirst                                          (* after the opening bracket  *)
| PStr (acc : list string) (cur : string)         (* inside a string literal    *)
| PEsc (acc : list string) (cur : string)         (* after a backslash          *)
| PHex (acc : list string) (cur : string) (k : nat) (v : N)
                                                  (* [k] hex digits still to read *)
| PAfter (acc : list string)                      (* after an element           *)
| PNext (acc : list string)                       (* after a comma              *)
| PEnd (acc : list string).                       (* after the closing bracket  *)

Definition is_ws (n : N) : bool :=
  (n =? 32)%N || (n =? 9)%N || (n =? 10)%N || (n =? 13)%N.

Definition hex_value (n : N) : option N :=
  if (48 <=? n)%N && (n <=? 57)%N then Some (n - 48)%N
  else if (97 <=? n)%N && (n <=? 102)%N then Some (n - 87)%N
  else if (65 <=? n)%N && (n <=? 70)%N then Some (n - 55)%N
  else None.

Definition snoc (s : string) (c : ascii) : string := s ++ String c "".

Definition step (st : pstate) (c : ascii) : option pstate :=
  let n := N_of_ascii c in
  match st with
  | PStart =>
      if is_ws n then Some PStart
      else if (n =? 91)%N then Some PFirst else None
  | PFirst =>
      if is_ws n then Some PFirst
      else if (n =? 93)%N then Some (PEnd [])
      else if (n =? 34)%N then Some (PStr [] "") else None
  | PStr acc cur =>
      if (n =? 34)%N then Some (PAfter (acc ++ [cur]))
      else if (n =? 92)%N then Some (PEsc acc cur)
      else if (n <? 32)%N then None
      else Some (PStr acc (snoc cur c))
  | PEsc acc cur =>
      if (n =? 34)%N then Some (PStr acc (snoc cur dquote))
      else if (n =? 92)%N then Some (PStr acc (snoc cur backslash))
      else if (n =? 47)%N then Some (PStr acc (snoc cur "/"))
      else if (n =? 98)%N then Some (PStr acc (snoc cur "008"))
      else if (n =? 102)%N then Some (PStr acc (snoc cur "012"))
      else if (n =? 110)%N then Some (PStr acc (snoc cur "010"))
      else if (n =? 114)%N then Some (PStr acc (snoc cur "013"))
      else if (n =? 116)%N then Some (PStr acc (snoc cur "009"))
      else if (n =? 117)%N then Some (PHex acc cur 4 0)
      else None
  | PHex acc cur k v =>
      match hex_value n with
      | None => None
      | Some d =>
          let v' := (16 * v + d)%N in
          match k with
          | 1%nat =>
              (* code units above 255 are outside the modelled strings *)
              if (v' <? 256)%N then Some (PStr acc (snoc cur (ascii_of_N v')))
              else None
          | _ => Some (PHex acc cur (Nat.pred k) v')
          end
      end
  | PAfter acc =>
      if is_ws n then Some (PAfter acc)
      else if (n =? 44)%N then Some (PNext acc)
      else if (n =? 93)%N then Some (PEnd acc) else None
  | PNext acc =>
      if is_ws n then Some (PNext acc)
      else if (n =? 34)%N then Some (PStr acc "") else None
  | PEnd acc =>
      if is_ws n then Some (PEnd acc) else None
  end.

Fixpoint run (st : pstate) (text : string) : option (list string) :=
  match text with
  | EmptyString => match st with PEnd acc => Some acc | _ => None end
  | String c text' =>
      match step st c with
      | Some st' => run st' text'
      | None => None
      end
  end.

(** [Some l]: the text denotes the array [l].  [None]: [JSON.parse]
    throws a [SyntaxError], or the text denotes some other JSON value. *)
Definition parse (text : string) : option (list string) := run PStart text.

End JSON.

(** ** The favourites store and localStorage (page.tsx, lines 33-39, 145-149) *)

Abbreviation storage := (gmap string string).

Definition FAVORITES_KEY : string := "cryptoFavorites".

(** The lazy initialiser of the [favorites] state.  [window] is [None] where
    [typeof window] is ['undefined'].  A missing key reads as [null] and the
    empty string is falsy; [None] as a result means that [JSON.parse] did not
    yield an array of strings. *)
Definition initFavorites (window : option storage) : option (list string) :=
  match window with
  | Some localStorage =>
      match localStorage !! FAVORITES_KEY with
      | Some saved =>
          if String.eqb saved "" then Some [] else JSON.parse saved
      | None => Some []
      end
  | None => Some []
  end.

(** The effect that depends on [[favorites]]: it runs after the first render
    and after every render in which [favorites] has changed. *)
Definition persistFavorites (favorites : list string) (window : option storage)
    : option storage :=
  match window with
  | Some localStorage => Some (<[FAVORITES_KEY := JSON.stringify favorites]> localStorage)
  | None => None
  end.

(** A click on a star: [toggleFavorite] updates the state, the component
    renders again and the effect mirrors the new list. *)
Definition clickStar (cryptoId : string) (fw : list string * option storage)
    : list string * option storage :=
  let favorites' := toggleFavorite cryptoId (fst fw) in
  (favorites', persistFavorites favorites' (snd fw)).

(** ** Component state (page.tsx, lines 32-43) *)

Record State := mkState {
  cryptoData : list CryptoData;
  favorites : list string;
  loading : bool;
  error : option string;
  lastFetchTime : Z;
  isRefreshing : bool
}.

Definition setCryptoData (v : list CryptoData) (s : State) : State :=
  mkState v (favorites s) (loading s) (error s) (lastFetchTime s) (isRefreshing s).
Definition setLoading (v : bool) (s : State) : State :=
  mkState (cryptoData s) (favorites s) v (error s) (lastFetchTime s) (isRefreshing s).
Definition setError (v : option string) (s : State) : State :=
  mkState (cryptoData s) (favorites s) (loading s) v (lastFetchTime s) (isRefreshing s).
Definition setLastFetchTime (v : Z) (s : State) : State :=
  mkState (cryptoData s) (favorites s) (loading s) (error s) v (isRefreshing s).
Definition setIsRefreshing (v : bool) (s : State) : State :=
  mkState (cryptoData s) (favorites s) (loading s) (error s) (lastFetchTime s) v.

(** The state of the first render, given the favourites read at start-up. *)
Definition initialState (favs : list string) : State :=
  mkState [] favs true None 0 false.

(** ** The network, as seen by one request *)

(** What [await response.json()] yields: a parsed value, which is an array of
    listings or some other JSON value, or a [SyntaxError] with the engine's
    message when the body is not JSON. *)
Inductive Json :=
| JArray (data : list CryptoData)
| JNotArray.

Inductive BodyRead :=
| BodyJson (v : Json)
| BodySyntaxError (message : string).

(** How the request settles when it is left alone: the network fails (the
    promise rejects with a [TypeError]) or a response with a status arrives. *)
Inductive Settle :=
| NetworkFailure (message : string)
| Responds (status : Z) (body : BodyRead).

(** [latency] is the time in milliseconds after which the request would
    settle. *)
Record Exchange := mkExchange {
  latency : N;
  settle : Settle
}.

(** Values that reach the [catch] clause. *)
Inductive Thrown :=
| ErrorObject (ename : string) (message : string)
| NonError.

Definition RATE_LIMIT_MESSAGE : string :=
  "Rate limit exceeded. Please wait a moment before refreshing.".
Definition INVALID_DATA_MESSAGE : string :=
  "Invalid data received from the server".
Definition TIMEOUT_MESSAGE : string :=
  "Request timed out. Please try again.".
Definition UNEXPECTED_MESSAGE : string :=
  "An unexpected error occurred. Please try again.".

(** The template literal [`Failed to fetch data (HTTP ${response.status})`]. *)
Definition http_failure_message (status : Z) : string :=
  "Failed to fetch data (HTTP " ++ pretty status ++ ")".

(** [response.ok]: the status is in the range 200-299. *)
Definition response_ok (status : Z) : bool :=
  (200 <=? status)%Z && (status <=? 299)%Z.

(** The timer set by [setTimeout(() => controller.abort(), FETCH_TIMEOUT)]
    fires unless the request settles first and the timer is cleared. *)
Definition timer_fires (x : Exchange) : bool :=
  (FETCH_TIMEOUT <=? Z.of_N (latency x))%Z.

(** [await fetch(url, { signal })]: an abort rejects the promise with a
    DOMException named AbortError. *)
Definition await_fetch (x : Exchange) : Thrown + (Z * BodyRead) :=
  if timer_fires x then inl (ErrorObject "AbortError" "The user aborted a request.")
  else match settle x with
       | NetworkFailure m => inl (ErrorObject "TypeError" m)
       | Responds status body => inr (status, body)
       end.

(** The body of the [try] block (lines 64-93) up to the state updates: the
    listings to store, or the value thrown. *)
Definition try_block (x : Exchange) : Thrown + list CryptoData :=
  match await_fetch x with
  | inl e => inl e
  | inr (status, body) =>
      if (status =? 429)%Z then inl (ErrorObject "Error" RATE_LIMIT_MESSAGE)
      else if negb (response_ok status) then
        inl (ErrorObject "Error" (http_failure_message status))
      else match body with
           | BodySyntaxError m => inl (ErrorObject "SyntaxError" m)
           | BodyJson JNotArray => inl (ErrorObject "Error" INVALID_DATA_MESSAGE)
           | BodyJson (JArray data) => inr data
           end
  end.

(** Time the request takes: until it settles or until the abort.  The body
    of a response is taken to have arrived with it: the time
    [response.json()] needs, which no timer limits, is not modelled. *)
Definition duration (x : Exchange) : Z := Z.min (Z.of_N (latency x)) FETCH_TIMEOUT.

(** ** The fetcher (page.tsx, lines 45-126) *)

(** What happens outside the component state. *)
Inductive Event :=
| EvRequest (at_ : Z)      (* a request is sent                         *)
| EvAbort (at_ : Z)        (* the timeout aborts the pending request    *)
| EvWait (ms : Z).         (* the retry delay                           *)

Record World := mkWorld {
  st : State;
  clock : Z;               (* Date.now()                          *)
  sent : nat;              (* number of requests sent so far      *)
  log : list Event         (* oldest event first                  *)
}.

Definition update (f : State -> State) (w : World) : World :=
  mkWorld (f (st w)) (clock w) (sent w) (log w).
Definition emit (e : Event) (w : World) : World :=
  mkWorld (st w) (clock w) (sent w) (log w ++ [e]).
Definition advance (ms : Z) (w : World) : World :=
  mkWorld (st w) (clock w + ms) (sent w) (log w).
Definition send (w : World) : World :=
  mkWorld (st w) (clock w) (S (sent w)) (log w ++ [EvRequest (clock w)]).

(** The values [useCallback] captures for the dependency list
    [[lastFetchTime, cryptoData.length]]. *)
Record Closure := mkClosure {
  seen_lastFetchTime : Z;
  seen_length : nat
}.

Definition useCallback (s : State) : Closure :=
  mkClosure (lastFetchTime s) (length (cryptoData s)).

(** The guard of line 47. *)
Definition throttled (c : Closure) (isManualRefresh : bool) (now : Z) : bool :=
  negb isManualRefresh && (now - seen_lastFetchTime c <? 10000)%Z
    && (0 <? seen_length c)%nat.

(** Lines 51-56. *)
Definition begin_ (isManualRefresh : bool) (s : State) : State :=
  setError None
    (if isManualRefresh then setIsRefreshing true s else setLoading true s).

(** The [finally] clause (lines 119-125). *)
Definition finally_ (isManualRefresh : bool) (s : State) : State :=
  if isManualRefresh then setIsRefreshing false s else setLoading false s.

(** Lines 115-118: "Keep existing data if we have it". *)
Definition keep_existing (c : Closure) (s : State) : State :=
  if (seen_length c =? 0)%nat then setCryptoData [] s else s.

(** A suspended call resumes as soon as its request has settled or was
    aborted, at time [t], or later when the event loop was busy until then. *)
Definition resume_at (t : Z) (w : World) : World :=
  mkWorld (st w) (Z.max (clock w) t) (sent w) (log w).

Section Fetcher.

(** [net k] is what the network does with the [k]-th request sent. *)
Variable net : nat -> Exchange.
(** While request [k] is pending the event loop runs whatever else is due,
    a click on the refresh button for instance: [during k] is what that
    does.  It is [idle] when nothing else happens. *)
Variable during : nat -> World -> World.
(** The captured render values. *)
Variable c : Closure.

(** [fetchCryptoData(retries, isManualRefresh)].  An async call runs up to
    its first [await] and then hands control back: [caller] is what the
    caller does at that point (nothing for a call from a timer or a click,
    the [finally] clause of the enclosing call for a retry). *)
Fixpoint fetchCryptoData (retries : nat) (isManualRefresh : bool)
    (caller : World -> World) (w : World) : World :=
  let now := clock w in
  if throttled c isManualRefresh now then caller w
  else
    let w := update (begin_ isManualRefresh) w in
    let k := sent w in
    let x := net k in
    let w := caller (send w) in
    let w := resume_at (now + duration x) (during k w) in
    match try_block x with
    | inr data =>
        update (finally_ isManualRefresh)
          (update (fun s => setError None (setLastFetchTime now (setCryptoData data s))) w)
    | inl (ErrorObject ename message) =>
        if String.eqb ename "AbortError" then
          let w := emit (EvAbort (clock w)) w in
          match retries with
          | S retries' =>
              let w := advance RETRY_DELAY (emit (EvWait RETRY_DELAY) w) in
              fetchCryptoData retries' isManualRefresh
                (update (finally_ isManualRefresh)) w
          | O =>
              update (finally_ isManualRefresh)
                (update (keep_existing c) (update (setError (Some TIMEOUT_MESSAGE)) w))
          end
        else
          update (finally_ isManualRefresh)
            (update (keep_existing c) (update (setError (Some message)) w))
    | inl NonError =>
        update (finally_ isManualRefresh)
          (update (keep_existing c) (update (setError (Some UNEXPECTED_MESSAGE)) w))
    end.

End Fetcher.

(** Nothing else happens while a request is pending. *)
Definition idle (k : nat) (w : World) : World := w.

(** A call through the callback of the current render, with nothing else
    going on: by the timer or on load, [fetchCryptoData()], and by a click on
    the refresh button, [fetchCryptoData(MAX_RETRIES, true)]. *)
Definition invoke (net : nat -> Exchange) (isManualRefresh : bool) (w : World) : World :=
  fetchCryptoData net idle (useCallback (st w)) MAX_RETRIES isManualRefresh (fun w => w) w.
Definition autoFetch (net : nat -> Exchange) (w : World) : World := invoke net false w.
Definition manualFetch (net : nat -> Exchange) (w : World) : World := invoke net true w.

(** The first load during which the user clicks the refresh button while
    request [k] of the load is pending; the click is handled to its end before
    that request settles. *)
Definition loadWithClick (net : nat -> Exchange) (k : nat) (w : World) : World :=
  fetchCryptoData net (fun i => if (i =? k)%nat then manualFetch net else idle i)
    (useCallback (st w)) MAX_RETRIES false (fun w => w) w.

(** The [disabled] attribute of the refresh button (line 256), computed by a
    render at time [now]. *)
Definition refreshDisabled (s : State) (now : Z) : bool :=
  isRefreshing s || (now - lastFetchTime s <? 10000)%Z.

(** ** The scheduler (page.tsx, lines 128-143) *)

Module Scheduler.

(** One run of the effect: its local variable [intervalId], and whether
    [initFetch] is still suspended at [await fetchCryptoData()]. *)
Record Instance := mkInstance {
  intervalId : option positive;
  pending : bool
}.

(** Calls of [fetchCryptoData()] made by the scheduler. *)
Inductive Call :=
| InitialCall (k : nat)          (* by [initFetch] of the [k]-th run   *)
| TimerCall (t : positive).      (* by the interval with identifier [t] *)

Record Sys := mkSys {
  timers : gmap positive Z;      (* active intervals and their periods *)
  next_id : positive;            (* identifier [setInterval] returns next *)
  instances : list Instance;
  calls : list Call              (* oldest first *)
}.

Definition init : Sys := mkSys ∅ 1%positive [] [].

Inductive Ev :=
| Run                            (* the effect body runs (mount, or a changed dependency) *)
| Settled (k : nat)              (* the promise awaited by the [k]-th run settles  *)
| Cleanup (k : nat)              (* the function returned by the [k]-th run is called *)
| Tick (t : positive).           (* the period of interval [t] has elapsed          *)

Definition step (s : Sys) (e : Ev) : Sys :=
  match e with
  | Run =>
      mkSys (timers s) (next_id s)
            (instances s ++ [mkInstance None true])
            (calls s ++ [InitialCall (length (instances s))])
  | Settled k =>
      match instances s !! k with
      | Some (mkInstance _ true) =>
          let t := next_id s in
          mkSys (<[t := AUTO_REFRESH_INTERVAL]> (timers s)) (Pos.succ t)
                (<[k := mkInstance (Some t) false]> (instances s))
                (calls s)
      | _ => s
      end
  | Cleanup k =>
      match instances s !! k with
      | Some (mkInstance (Some t) _) =>
          mkSys (delete t (timers s)) (next_id s) (instances s) (calls s)
      | _ => s
      end
  | Tick t =>
      match timers s !! t with
      | Some _ => mkSys (timers s) (next_id s) (instances s) (calls s ++ [TimerCall t])
      | None => s
      end
  end.

Definition run (evs : list Ev) (s : Sys) : Sys := fold_left step evs s.

End Scheduler.

(** * Specification vocabulary *)

(** [r] consists of exactly the elements of [l] that satisfy [P], in the
    order they have in [l]: it is a subsequence of [l] whose elements satisfy
    [P], and it contains every such subsequence. *)
Definition selects {A} (P : A -> Prop) (l r : list A) : Prop :=
  sublist r l /\ Forall P r /\
  forall r', sublist r' l -> Forall P r' -> sublist r' r.

(** Descending order of the 24h change. *)
Definition desc (a b : CryptoData) : Prop :=
  (price_change_percentage_24h b <= price_change_percentage_24h a)%Q.

(** What the 'gainers' view [out] (a heap and the reference of the array
    returned) must be for the fetched array [data] holding [l]. *)
Definition gainers_spec (data : Heap.ref) (l : list CryptoData)
    (out : Heap.heap * Heap.ref) : Prop :=
  (exists sorted,
      Permutation sorted l /\ StronglySorted desc sorted /\
      Heap.read out.1 out.2 = take 10 sorted) /\
  length (Heap.read out.1 out.2) = Nat.min 10 (length l) /\
  out.2 <> data /\
  out.1 !! data = Some l.

(** What toggling [cryptoId] in [prev] must give: when [cryptoId] occurs in
    [prev], no occurrence of it is left and exactly the other identifiers
    remain, in order; when it does not occur, it is added once at the end. *)
Definition toggle_spec (cryptoId : string) (prev r : list string) : Prop :=
  (cryptoId ∈ prev ->
     (cryptoId ∉ r) /\ selects (fun x => x <> cryptoId) prev r) /\
  (cryptoId ∉ prev ->
     r = (prev ++ [cryptoId])%list /\ count_occ string_dec r cryptoId = 1%nat).

(** The key [cryptoFavorites] of the storage holds the whole list
    [favorites], serialised. *)
Definition mirrored (favorites : list string) (window : option storage) : Prop :=
  exists localStorage,
    window = Some localStorage /\
    localStorage !! "cryptoFavorites" = Some (JSON.stringify favorites).

(** The requests numbered [n], ..., [n + k - 1] all run into the timeout. *)
Definition timeouts (net : nat -> Exchange) (n k : nat) : Prop :=
  forall i, (i < k)%nat -> timer_fires (net (n + i)%nat) = true.

(** The request settles within the time limit. *)
Definition in_time (x : Exchange) : Prop := timer_fires x = false.

(** What is sent and awaited during [k] attempts that time out, the first
    one starting at time [t]: a request, its abort 15 s later, and the wait of
    3 s before the next attempt. *)
Fixpoint retry_log (t : Z) (k : nat) : list Event :=
  match k with
  | O => []
  | S k' =>
      EvRequest t :: EvAbort (t + 15000) :: EvWait 3000
        :: retry_log (t + 18000) k'
  end.

(** The error string an attempt that settled in time leaves in the state. *)
Definition reported (r : Thrown + list CryptoData) : option string :=
  match r with
  | inr _ => None
  | inl (ErrorObject _ message) => Some message
  | inl NonError => Some UNEXPECTED_MESSAGE
  end.


(** The attempt ends, within the time limit, in a failure with [message]:
    the network fails, the status is not OK, or the body is not an array. *)
Definition fails_with (x : Exchange) (message : string) : Prop :=
  exists ename, try_block x = inl (ErrorObject ename message) /\ ename <> "AbortError".

(** A call allowed [retries] retries whose requests start at number [n]
    fails: some attempt fails within the time limit after the attempts before
    it have timed out, or all [retries + 1] attempts time out. *)
Definition fetch_fails (net : nat -> Exchange) (n retries : nat) : Prop :=
  (exists k message, (k <= retries)%nat /\ timeouts net n k /\
                     fails_with (net (n + k)%nat) message) \/
  timeouts net n (S retries).

(** A call succeeds at its attempt number [k] with the listings [data]. *)
Definition fetch_succeeds (net : nat -> Exchange) (n retries k : nat)
    (data : list CryptoData) : Prop :=
  (k <= retries)%nat /\ timeouts net n k /\ try_block (net (n + k)%nat) = inr data.

(** The body that was read is not a JSON array. *)
Definition not_json_array (body : BodyRead) : Prop :=
  forall data, body <> BodyJson (JArray data).

(** The first request of a call from world [w] is answered in time with
    [status] and [body]. *)
Definition answered (net : nat -> Exchange) (w : World) (status : Z) (body : BodyRead)
    : Prop :=
  in_time (net (sent w)) /\ settle (net (sent w)) = Responds status body.

(** A caller that resumes while a call is suspended touches nothing but the
    two progress flags. *)
Definition quiet (f : World -> World) : Prop :=
  forall w, clock (f w) = clock w /\ sent (f w) = sent w /\ log (f w) = log w /\
            cryptoData (st (f w)) = cryptoData (st w) /\
            lastFetchTime (st (f w)) = lastFetchTime (st w).

(** The world in which a call that is not skipped awaits its request. *)
Definition awaiting (net : nat -> Exchange) (m : bool) (caller : World -> World)
    (w : World) : World :=
  resume_at (clock w + duration (net (sent w)))
    (caller (send (update (begin_ m) w))).

(** The listings left by a failed call whose closure is [c]. *)
Definition kept (c : Closure) (data : list CryptoData) : list CryptoData :=
  if (seen_length c =? 0)%nat then [] else data.

(** The classification of failures, "a response body that is not a JSON
    array" being any body but a JSON array.  [e] is the error the call leaves
    in the state. *)
Definition classification_as_stated : Prop :=
  forall (net : nat -> Exchange) (m : bool) (w : World) (status : Z) (body : BodyRead),
    throttled (useCallback (st w)) m (clock w) = false ->
    answered net w status body ->
    let e := error (st (invoke net m w)) in
    (status = 429 ->
       e = Some "Rate limit exceeded. Please wait a moment before refreshing.") /\
    (status <> 429 -> response_ok status = false ->
       e = Some ("Failed to fetch data (HTTP " ++ pretty status ++ ")")%string) /\
    (response_ok status = true -> not_json_array body ->
       e = Some "Invalid data received from the server").

(** The classification the fetcher makes, [e] being the error the call
    leaves in the state: the rate-limit message for status 429, the generic
    message with the status for any other status outside 200-299, the
    invalid-data message for a body that parses to a value other than an
    array, and the parser's own message for a body that does not parse. *)
Definition classification (status : Z) (body : BodyRead) (e : option string) : Prop :=
  (status = 429 ->
     e = Some "Rate limit exceeded. Please wait a moment before refreshing.") /\
  (status <> 429 -> response_ok status = false ->
     e = Some ("Failed to fetch data (HTTP " ++ pretty status ++ ")")%string) /\
  (response_ok status = true -> body = BodyJson JNotArray ->
     e = Some "Invalid data received from the server") /\
  (response_ok status = true -> forall message, body = BodySyntaxError message ->
     e = Some message).

(** The refresh button and the timestamp, for a call from [w] to [w']:
    - a render made at time [render] disables the button when, at that time
      or at any later time [now], fewer than 10 s separate [now] from
      [lastFetchTime]; the button is disabled exactly when a manual refresh is
      running or the render finds fewer than 10 s;
    - the call leaves [lastFetchTime] as it was, or it has succeeded at some
      attempt and [lastFetchTime] is the time at which that attempt started;
    - a call that fails leaves [lastFetchTime] as it was;
    - a call that succeeds stores the listings, clears the error and sets
      [lastFetchTime] to the time at which the successful attempt started. *)
Definition throttle_spec (net : nat -> Exchange) (m : bool) (w w' : World) : Prop :=
  (forall s render now,
     render <= now -> now - lastFetchTime s < 10000 ->
     refreshDisabled s render = true) /\
  (forall s now, refreshDisabled s now = true <->
                 isRefreshing s = true \/ now - lastFetchTime s < 10000) /\
  (lastFetchTime (st w') = lastFetchTime (st w) \/
   exists k data, fetch_succeeds net (sent w) 3 k data /\
                  lastFetchTime (st w') = clock w + 18000 * Z.of_nat k) /\
  (fetch_fails net (sent w) 3 -> lastFetchTime (st w') = lastFetchTime (st w)) /\
  (forall k data,
     throttled (useCallback (st w)) m (clock w) = false ->
     fetch_succeeds net (sent w) 3 k data ->
     lastFetchTime (st w') = clock w + 18000 * Z.of_nat k /\
     cryptoData (st w') = data /\ error (st w') = None).

(** A call from world [w] that ends in [w'] has sent a request at once. *)
Definition requested (w w' : World) : Prop :=
  exists rest, log w' = (log w ++ EvRequest (clock w) :: rest)%list.

(** The scope of the guard inside [fetchCryptoData]: it holds exactly for a
    call that is not manual, made fewer than 10 s after [lastFetchTime] while
    the list held is not empty; a manual call always sends its request, so
    does an automatic call when the list is empty, and an automatic call the
    guard holds for changes nothing. *)
Definition guard_scope (net : nat -> Exchange) (w : World) : Prop :=
  (forall c m now,
     throttled c m now = true <->
     m = false /\ now - seen_lastFetchTime c < 10000 /\ (0 < seen_length c)%nat) /\
  requested w (manualFetch net w) /\
  (cryptoData (st w) = [] -> requested w (autoFetch net w)) /\
  (clock w - lastFetchTime (st w) < 10000 -> cryptoData (st w) <> [] ->
     autoFetch net w = w).

(** Every interval the scheduler has registered has the period 60 s. *)
Definition periods_ok (s : Scheduler.Sys) : Prop :=
  forall t p, Scheduler.timers s !! t = Some p -> p = 60000.

(** * Sample values *)

Module Sample.

Definition coin (i : string) (change volume : Q) : CryptoData :=
  mkCryptoData i i i "" 1 change 1 volume 1 1 "2021-11-10T14:24:11.849Z".

Definition btc : CryptoData := coin "bitcoin" (3 # 2) (30000000000 # 1).
Definition eth : CryptoData := coin "ethereum" (5 # 2) (15000000000 # 1).
Definition doge : CryptoData := coin "dogecoin" (-(7 # 4)) (900000000 # 1).

Definition listing : list CryptoData := [btc; eth; doge].

Definition heap : Heap.heap := {[ 1%positive := listing ]}.

(** A first load at some time of day, nothing fetched yet. *)
Definition world0 : World := mkWorld (initialState []) 1700000000000 0 [].

(** Listings fetched 4 s ago. *)
Definition world1 : World :=
  mkWorld (mkState listing [] false None 1700000000000 false) 1700000004000 1
          [EvRequest 1700000000000].

Definition slow : Exchange := mkExchange 20000 (NetworkFailure "Failed to fetch").
Definition busy : Exchange := mkExchange 120 (Responds 429 (BodyJson JNotArray)).
Definition down : Exchange := mkExchange 120 (Responds 503 (BodyJson JNotArray)).
Definition page : Exchange :=
  mkExchange 120 (Responds 200 (BodySyntaxError "Unexpected token < in JSON at position 0")).
Definition fine : Exchange := mkExchange 350 (Responds 200 (BodyJson (JArray listing))).

(** Two requests run into the timeout, the third is answered with 429. *)
Definition net_flaky (i : nat) : Exchange := if (i <? 2)%nat then slow else busy.
(** One request runs into the timeout, the next is answered. *)
Definition net_late (i : nat) : Exchange := if (i <? 1)%nat then slow else fine.
(** The first request runs into the timeout, the second is answered with
    429 after 2 s, the third with the listings after 350 ms. *)
Definition net_race (i : nat) : Exchange :=
  if (i =? 0)%nat then slow
  else if (i =? 1)%nat then mkExchange 2000 (Responds 429 (BodyJson JNotArray))
  else fine.
Definition net_dead (i : nat) : Exchange := slow.
Definition net_down (i : nat) : Exchange := down.
Definition net_page (i : nat) : Exchange := page.

End Sample.

(** * Further parts of the component *)

(** The star of a card is filled when the coin is a favourite
    (page.tsx, lines 200-202). *)
Definition starred (favorites : list string) (crypto : CryptoData) : bool :=
  JSArray.includes favorites (id crypto).

(** The component shows the spinner instead of the page (line 235). *)
Definition showsSpinner (s : State) : bool :=
  loading s && (length (cryptoData s) =? 0)%nat.


(** A series of clicks on stars, first click first. *)
Definition clicks (ids : list string) (fw : list string * option storage)
    : list string * option storage :=
  fold_left (fun fw cryptoId => clickStar cryptoId fw) ids fw.

(** The favourites at start-up: the state is initialised from the storage and
    the effect of lines 145-149 runs after the first render. *)
Definition mountFavorites (favorites : list string) (window : option storage)
    : list string * option storage :=
  (favorites, persistFavorites favorites window).

(** * Further specification vocabulary *)

(** [f] changes nothing but the progress flag of a call of kind [m]. *)
Definition flag_only (m : bool) (f : World -> World) : Prop :=
  forall w, clock (f w) = clock w /\ sent (f w) = sent w /\ log (f w) = log w /\
            cryptoData (st (f w)) = cryptoData (st w) /\
            lastFetchTime (st (f w)) = lastFetchTime (st w) /\
            favorites (st (f w)) = favorites (st w) /\
            (if m then loading (st (f w)) = loading (st w)
             else isRefreshing (st (f w)) = isRefreshing (st w)).

(** What a call of kind [m] that has ended, from [w] to [w'], leaves of the
    parts it does not own when nothing else was handled meanwhile: its own
    flag is off, the other flag and the favourites are as before, and at
    least one and at most [retries + 1] requests were sent. *)
Definition call_frame (m : bool) (retries : nat) (w w' : World) : Prop :=
  (if m then isRefreshing (st w') = false /\ loading (st w') = loading (st w)
   else loading (st w') = false /\ isRefreshing (st w') = isRefreshing (st w)) /\
  favorites (st w') = favorites (st w) /\
  (sent w < sent w' <= sent w + retries + 1)%nat.

(** The throttle of the refresh button with the 10 s counted from the moment
    the last successful fetch completed: when a call has succeeded, every
    render made less than 10 s after the call ended disables the button. *)
Definition throttle_as_stated : Prop :=
  forall (net : nat -> Exchange) (m : bool) (w : World) (k : nat)
         (data : list CryptoData) (render : Z),
    throttled (useCallback (st w)) m (clock w) = false ->
    fetch_succeeds net (sent w) 3 k data ->
    clock (invoke net m w) <= render < clock (invoke net m w) + 10000 ->
    refreshDisabled (st (invoke net m w)) render = true.

(** The 24h change of a listing. *)
Definition change (crypto : CryptoData) : Q := price_change_percentage_24h crypto.

(** The elements of [l] whose 24h change equals [q], in order. *)
Definition with_change (q : Q) (l : list CryptoData) : list CryptoData :=
  List.filter (fun crypto => Qeq_bool (change crypto) q) l.

(** The life of the scheduler when every run of the effect settles before it
    is cleaned up: run number [k] registers the interval [k + 1]; [cycles]
    lists, run by run, how often the interval fires before the cleanup. *)
Fixpoint lifecycle (k : nat) (cycles : list nat) : list Scheduler.Ev :=
  match cycles with
  | [] => []
  | n :: rest =>
      (Scheduler.Run :: Scheduler.Settled k
         :: repeat (Scheduler.Tick (Pos.of_succ_nat k)) n
         ++ [Scheduler.Cleanup k])%list
        ++ lifecycle (S k) rest
  end%list.

(** The calls the scheduler makes during such a life. *)
Fixpoint lifecycle_calls (k : nat) (cycles : list nat) : list Scheduler.Call :=
  match cycles with
  | [] => []
  | n :: rest =>
      (Scheduler.InitialCall k :: repeat (Scheduler.TimerCall (Pos.of_succ_nat k)) n)%list
        ++ lifecycle_calls (S k) rest
  end%list.

(** The states of the scheduler in which the bookkeeping is sound: interval
    identifiers in use are below the next one to be handed out, a run that is
    still pending holds no identifier, and no two runs hold the same one. *)
Definition sched_inv (s : Scheduler.Sys) : Prop :=
  (forall t p, Scheduler.timers s !! t = Some p -> (t < Scheduler.next_id s)%positive) /\
  (forall k i t, Scheduler.instances s !! k = Some i ->
                 Scheduler.intervalId i = Some t ->
                 (t < Scheduler.next_id s)%positive /\ Scheduler.pending i = false) /\
  (forall j k i i' t, Scheduler.instances s !! j = Some i ->
                      Scheduler.instances s !! k = Some i' ->
                      Scheduler.intervalId i = Some t ->
                      Scheduler.intervalId i' = Some t -> j = k).

(** * Further sample values *)

Module MoreSamples.

(** The network is unreachable: the request fails after 40 ms. *)
Definition offline : Exchange := mkExchange 40 (NetworkFailure "Failed to fetch").
Definition net_offline (i : nat) : Exchange := offline.

(** The provider answers with an empty array. *)
Definition nothing : Exchange := mkExchange 200 (Responds 200 (BodyJson (JArray []))).
Definition net_nothing (i : nat) : Exchange := nothing.

(** The provider answers every request with the listings after 350 ms. *)
Definition net_fine (i : nat) : Exchange := Sample.fine.

(** The provider answers every request with the listings, after 12 s. *)
Definition sluggish : Exchange :=
  mkExchange 12000 (Responds 200 (BodyJson (JArray Sample.listing))).
Definition net_sluggish (i : nat) : Exchange := sluggish.

(** Listings fetched a minute ago; the refresh button is enabled. *)
Definition world2 : World :=
  mkWorld (mkState Sample.listing [] false None 1700000000000 false) 1700000060000 1
          [EvRequest 1700000000000].

End MoreSamples.

(** * Properties *)

Local Open Scope list_scope.

(** ** Arrays *)

Lemma includes_true (l : list string) (x : string) :
  JSArray.includes l x = true <-> x ∈ l.
Proof.
  unfold JSArray.includes. rewrite existsb_exists. split.
  - intros (y & Hy & He). apply String.eqb_eq in He. subst y.
    now apply list_elem_of_In.
  - intros H. exists x. split; [now apply list_elem_of_In | apply String.eqb_refl].
Qed.

Lemma includes_false (l : list string) (x : string) :
  JSArray.includes l x = false <-> x ∉ l.
Proof.
  rewrite <- includes_true. destruct (JSArray.includes l x); split; congruence.
Qed.

Lemma filter_selects {A} (p : A -> bool) (P : A -> Prop) (l : list A) :
  (forall x, p x = true <-> P x) -> selects P l (JSArray.filter p l).
Proof.
  intros Hp. unfold selects, JSArray.filter. repeat split.
  - induction l as [|x l IH]; simpl; [constructor|].
    destruct (p x); [now apply sublist_skip | now apply sublist_cons].
  - apply Forall_forall. intros x Hx. apply list_elem_of_In, filter_In in Hx.
    now apply Hp.
  - intros r' Hsub. induction Hsub as [|x l1 l2 _ IH|x l1 l2 _ IH]; intros HP.
    + apply sublist_nil_l.
    + apply Forall_cons in HP as [HPx HP]. simpl.
      apply Hp in HPx. rewrite HPx. apply sublist_skip. now apply IH.
    + simpl. destruct (p x); [apply sublist_cons|]; now apply IH.
Qed.

Lemma selects_unique {A} (P : A -> Prop) (l r1 r2 : list A) :
  selects P l r1 -> selects P l r2 -> r1 = r2.
Proof.
  intros (S1 & F1 & M1) (S2 & F2 & M2).
  apply (anti_symm sublist); auto.
Qed.

Lemma is_positive_lt (a b : Q) :
  JSArray.is_positive (b - a) = true <-> (a < b)%Q.
Proof.
  unfold JSArray.is_positive. rewrite Z.ltb_lt, (Qlt_minus_iff a b).
  unfold Qminus, Qlt. simpl. lia.
Qed.

Lemma insert_perm {A} (cmp : A -> A -> Q) (x : A) (l : list A) :
  Permutation (JSArray.insert cmp x l) (x :: l).
Proof.
  induction l as [|y l IH]; simpl; [reflexivity|].
  destruct (JSArray.is_positive (cmp x y)); [|reflexivity].
  rewrite IH. apply perm_swap.
Qed.

Lemma sort_perm {A} (cmp : A -> A -> Q) (l : list A) :
  Permutation (JSArray.sort cmp l) l.
Proof.
  induction l as [|x l IH]; simpl; [reflexivity|].
  rewrite insert_perm. now apply perm_skip.
Qed.

Lemma insert_desc (x : CryptoData) (l : list CryptoData) :
  StronglySorted desc l -> StronglySorted desc (JSArray.insert gainers_cmp x l).
Proof.
  induction 1 as [|y l Hs IH Hy]; simpl.
  - repeat constructor.
  - destruct (JSArray.is_positive (gainers_cmp x y)) eqn:E.
    + apply is_positive_lt in E. constructor; [exact IH|].
      apply Forall_forall. intros z Hz.
      rewrite (insert_perm gainers_cmp x l) in Hz.
      apply elem_of_cons in Hz as [->|Hz].
      * unfold desc. now apply Qlt_le_weak.
      * rewrite Forall_forall in Hy. now apply Hy.
    + assert (Hxy : desc x y).
      { unfold desc. apply Qnot_lt_le. intros Hlt.
        apply is_positive_lt in Hlt. unfold gainers_cmp in E. congruence. }
      constructor; [now constructor|].
      constructor; [exact Hxy|].
      apply Forall_forall. intros z Hz. rewrite Forall_forall in Hy.
      unfold desc in *. eapply Qle_trans; [apply Hy, Hz | exact Hxy].
Qed.

Lemma sort_desc (l : list CryptoData) :
  StronglySorted desc (JSArray.sort gainers_cmp l).
Proof.
  induction l as [|x l IH]; simpl; [constructor | now apply insert_desc].
Qed.

(** ** Heap *)

Lemma alloc_fresh (h : Heap.heap) (v : list CryptoData) (r : Heap.ref) :
  is_Some (h !! r) -> (Heap.alloc h v).2 <> r.
Proof.
  intros Hr E. unfold Heap.alloc in E. simpl in E.
  apply elem_of_dom in Hr. rewrite <- E in Hr. now apply is_fresh in Hr.
Qed.

Lemma alloc_read (h : Heap.heap) (v : list CryptoData) :
  Heap.read (Heap.alloc h v).1 (Heap.alloc h v).2 = v.
Proof. unfold Heap.read, Heap.alloc. simpl. now rewrite lookup_insert_eq. Qed.

Lemma alloc_keeps (h : Heap.heap) (v : list CryptoData) (r : Heap.ref) :
  is_Some (h !! r) -> (Heap.alloc h v).1 !! r = h !! r.
Proof.
  intros Hr. pose proof (alloc_fresh h v r Hr) as Hne.
  unfold Heap.alloc in *. simpl in *. now rewrite lookup_insert_ne.
Qed.

(** ** The fetcher *)

Lemma quiet_id : quiet (fun w => w).
Proof. intros w. auto. Qed.

Lemma quiet_finally (m : bool) : quiet (update (finally_ m)).
Proof. intros w. destruct m; simpl; auto. Qed.

Lemma throttled_later (c : Closure) (m : bool) (t t' : Z) :
  throttled c m t = false -> t <= t' -> throttled c m t' = false.
Proof.
  unfold throttled. intros H Hle.
  destruct (negb m); [|reflexivity]. simpl in *.
  destruct (0 <? seen_length c)%nat; [|now rewrite andb_false_r].
  rewrite andb_true_r in *. apply Z.ltb_ge in H. apply Z.ltb_ge. lia.
Qed.

(** The name of the value thrown tells a timeout from the other failures. *)
Lemma try_block_abort (x : Exchange) :
  timer_fires x = true ->
  try_block x = inl (ErrorObject "AbortError" "The user aborted a request.").
Proof. intros H. unfold try_block, await_fetch. now rewrite H. Qed.

Lemma try_block_in_time (x : Exchange) :
  timer_fires x = false ->
  (exists data, try_block x = inr data) \/
  (exists ename message,
      try_block x = inl (ErrorObject ename message) /\ ename <> "AbortError").
Proof.
  intros H. unfold try_block, await_fetch. rewrite H.
  destruct (settle x) as [m|status body].
  - right. eexists _, _. split; [reflexivity | discriminate].
  - destruct (status =? 429)%Z.
    { right. eexists _, _. split; [reflexivity | discriminate]. }
    destruct (negb (response_ok status)).
    { right. eexists _, _. split; [reflexivity | discriminate]. }
    destruct body as [[data|]|m].
    + left. now exists data.
    + right. eexists _, _. split; [reflexivity | discriminate].
    + right. eexists _, _. split; [reflexivity | discriminate].
Qed.

Lemma fails_with_in_time (x : Exchange) (message : string) :
  fails_with x message -> timer_fires x = false.
Proof.
  intros (e & Ht & Hne). destruct (timer_fires x) eqn:E; [|reflexivity].
  rewrite (try_block_abort x E) in Ht. congruence.
Qed.

Lemma duration_abort (x : Exchange) : timer_fires x = true -> duration x = FETCH_TIMEOUT.
Proof.
  unfold timer_fires, duration. intros H. apply Z.leb_le in H. lia.
Qed.

Section FetcherSteps.

Variable net : nat -> Exchange.
Variable c : Closure.
Variable m : bool.

Lemma fetch_skipped retries caller w :
  throttled c m (clock w) = true ->
  fetchCryptoData net idle c retries m caller w = caller w.
Proof. intros H. destruct retries; simpl; now rewrite H. Qed.

Lemma fetch_success retries caller w data :
  throttled c m (clock w) = false ->
  try_block (net (sent w)) = inr data ->
  fetchCryptoData net idle c retries m caller w
  = update (finally_ m)
      (update (fun s => setError None (setLastFetchTime (clock w) (setCryptoData data s)))
         (awaiting net m caller w)).
Proof. intros H Ht. destruct retries; simpl; now rewrite H, Ht. Qed.

Lemma fetch_failure retries caller w ename message :
  throttled c m (clock w) = false ->
  try_block (net (sent w)) = inl (ErrorObject ename message) ->
  ename <> "AbortError" ->
  fetchCryptoData net idle c retries m caller w
  = update (finally_ m)
      (update (keep_existing c) (update (setError (Some message)) (awaiting net m caller w))).
Proof.
  intros H Ht Hne. apply String.eqb_neq in Hne.
  destruct retries; simpl; now rewrite H, Ht, Hne.
Qed.

Lemma fetch_exhausted caller w :
  throttled c m (clock w) = false ->
  timer_fires (net (sent w)) = true ->
  fetchCryptoData net idle c 0 m caller w
  = update (finally_ m)
      (update (keep_existing c)
         (update (setError (Some TIMEOUT_MESSAGE))
            (emit (EvAbort (clock (awaiting net m caller w))) (awaiting net m caller w)))).
Proof.
  intros H Ht. simpl. now rewrite H, (try_block_abort _ Ht).
Qed.

Lemma fetch_retry retries caller w :
  throttled c m (clock w) = false ->
  timer_fires (net (sent w)) = true ->
  fetchCryptoData net idle c (S retries) m caller w
  = fetchCryptoData net idle c retries m (update (finally_ m))
      (advance RETRY_DELAY
         (emit (EvWait RETRY_DELAY)
            (emit (EvAbort (clock (awaiting net m caller w))) (awaiting net m caller w)))).
Proof.
  intros H Ht. simpl. now rewrite H, (try_block_abort _ Ht).
Qed.

(** The world at the start of the retry that follows a timeout. *)
Lemma retry_world caller w :
  quiet caller ->
  timer_fires (net (sent w)) = true ->
  let w2 := advance RETRY_DELAY
              (emit (EvWait RETRY_DELAY)
                 (emit (EvAbort (clock (awaiting net m caller w))) (awaiting net m caller w))) in
  clock w2 = clock w + 18000 /\
  sent w2 = S (sent w) /\
  log w2 = log w ++ [EvRequest (clock w); EvAbort (clock w + 15000); EvWait 3000] /\
  cryptoData (st w2) = cryptoData (st w) /\
  lastFetchTime (st w2) = lastFetchTime (st w).
Proof.
  intros Hq Ht. unfold awaiting. rewrite (duration_abort _ Ht).
  destruct (Hq (send (update (begin_ m) w))) as (Hc & Hs & Hl & Hd & Hf).
  simpl in Hc. simpl. rewrite Hc, Hs, Hl, Hd, Hf. simpl.
  unfold FETCH_TIMEOUT, RETRY_DELAY.
  replace (Z.max (clock w) (clock w + 15000)) with (clock w + 15000) by lia.
  split; [lia|]. split; [reflexivity|]. split; [now rewrite <- !app_assoc|].
  split; destruct m; reflexivity.
Qed.

Lemma awaiting_clock caller w :
  quiet caller ->
  clock (awaiting net m caller w) = clock w + duration (net (sent w)).
Proof.
  intros Hq. unfold awaiting.
  destruct (Hq (send (update (begin_ m) w))) as (Hc & _).
  simpl in Hc. simpl. rewrite Hc. unfold duration, FETCH_TIMEOUT. lia.
Qed.

Lemma awaiting_world caller w :
  quiet caller ->
  sent (awaiting net m caller w) = S (sent w) /\
  log (awaiting net m caller w) = log w ++ [EvRequest (clock w)] /\
  cryptoData (st (awaiting net m caller w)) = cryptoData (st w) /\
  lastFetchTime (st (awaiting net m caller w)) = lastFetchTime (st w).
Proof.
  intros Hq. unfold awaiting.
  destruct (Hq (send (update (begin_ m) w))) as (Hc & Hs & Hl & Hd & Hf).
  simpl. rewrite Hs, Hl, Hd, Hf. simpl.
  repeat split; destruct m; reflexivity.
Qed.

End FetcherSteps.

Section FetcherRuns.

Variable net : nat -> Exchange.
Variable c : Closure.
Variable m : bool.

Lemma timeouts_tail (n k : nat) :
  timeouts net n (S k) -> timer_fires (net n) = true /\ timeouts net (S n) k.
Proof.
  intros H. split.
  - rewrite <- (Nat.add_0_r n). apply H. lia.
  - intros i Hi. replace (S n + i)%nat with (n + S i)%nat by lia. apply H. lia.
Qed.

Lemma cryptoData_keep (s : State) :
  cryptoData (keep_existing c s) = kept c (cryptoData s).
Proof. unfold keep_existing, kept. now destruct (seen_length c =? 0)%nat. Qed.

Lemma lastFetchTime_keep (s : State) :
  lastFetchTime (keep_existing c s) = lastFetchTime s.
Proof. unfold keep_existing. now destruct (seen_length c =? 0)%nat. Qed.

Lemma error_keep (s : State) : error (keep_existing c s) = error s.
Proof. unfold keep_existing. now destruct (seen_length c =? 0)%nat. Qed.

(** A call whose attempt number [k] settles in time, after [k] timeouts. *)
Lemma fetch_settles (retries : nat) :
  forall k caller w,
    (k <= retries)%nat -> quiet caller ->
    throttled c m (clock w) = false ->
    timeouts net (sent w) k -> in_time (net (sent w + k)%nat) ->
    let w' := fetchCryptoData net idle c retries m caller w in
    sent w' = (sent w + k + 1)%nat /\
    log w' = log w ++ retry_log (clock w) k
               ++ [EvRequest (clock w + 18000 * Z.of_nat k)] /\
    error (st w') = reported (try_block (net (sent w + k)%nat)) /\
    match try_block (net (sent w + k)%nat) with
    | inr data =>
        cryptoData (st w') = data /\
        lastFetchTime (st w') = clock w + 18000 * Z.of_nat k
    | inl _ =>
        cryptoData (st w') = kept c (cryptoData (st w)) /\
        lastFetchTime (st w') = lastFetchTime (st w)
    end.
Proof.
  induction retries as [|retries IH]; intros k caller w Hk Hq Hgo Hto Hin.
  - assert (k = 0)%nat by lia. subst k. clear Hto.
    rewrite Nat.add_0_r in *. unfold in_time in Hin.
    destruct (awaiting_world net m caller w Hq) as (Hs & Hl & Hd & Hf).
    destruct (try_block_in_time _ Hin) as [(data & Ht)|(e & msg & Ht & Hne)].
    + cbv zeta. rewrite (fetch_success net c m 0 caller w data Hgo Ht), Ht.
      destruct m; cbn -[awaiting]; rewrite Hs, Hl, Z.add_0_r;
        (repeat split; lia).
    + cbv zeta. rewrite (fetch_failure net c m 0 caller w e msg Hgo Ht Hne), Ht.
      destruct m; cbn -[awaiting]; rewrite error_keep, cryptoData_keep, lastFetchTime_keep;
        cbn -[awaiting]; rewrite Hs, Hl, Hd, Hf, Z.add_0_r;
        (repeat split; lia).
  - destruct k as [|k].
    + clear Hto IH. rewrite Nat.add_0_r in *. unfold in_time in Hin.
      destruct (awaiting_world net m caller w Hq) as (Hs & Hl & Hd & Hf).
      destruct (try_block_in_time _ Hin) as [(data & Ht)|(e & msg & Ht & Hne)].
      * cbv zeta. rewrite (fetch_success net c m _ caller w data Hgo Ht), Ht.
        destruct m; cbn -[awaiting]; rewrite Hs, Hl, Z.add_0_r;
          (repeat split; lia).
      * cbv zeta. rewrite (fetch_failure net c m _ caller w e msg Hgo Ht Hne), Ht.
        destruct m; cbn -[awaiting]; rewrite error_keep, cryptoData_keep, lastFetchTime_keep;
          cbn -[awaiting]; rewrite Hs, Hl, Hd, Hf, Z.add_0_r;
          (repeat split; lia).
    + apply timeouts_tail in Hto as [Ht Hto].
      cbv zeta. rewrite (fetch_retry net c m retries caller w Hgo Ht).
      destruct (retry_world net m caller w Hq Ht) as (Hc & Hs & Hl & Hd & Hf).
      set (w2 := advance RETRY_DELAY _) in *.
      assert (Hgo2 : throttled c m (clock w2) = false).
      { apply (throttled_later c m (clock w)); [exact Hgo | lia]. }
      replace (sent w + S k)%nat with (sent w2 + k)%nat in * by lia.
      rewrite <- Hs in Hto.
      specialize (IH k (update (finally_ m)) w2 ltac:(lia) (quiet_finally m)
                     Hgo2 Hto Hin).
      cbv zeta in IH. destruct IH as (I1 & I2 & I3 & I4).
      rewrite I1, I2, I3, Hl, Hc.
      split; [lia|]. split; [|split; [reflexivity|]].
      * rewrite <- !app_assoc. simpl.
        replace (clock w + 18000 + 18000 * Z.of_nat k)
          with (clock w + 18000 * Z.of_nat (S k)) by lia.
        reflexivity.
      * destruct (try_block (net (sent w2 + k)%nat)); rewrite <- ?Hd, <- ?Hf;
          (split; [apply I4 | destruct I4 as [_ ->]; try reflexivity; lia]).
Qed.

(** A call all of whose attempts time out. *)
Lemma fetch_times_out (retries : nat) :
  forall caller w,
    quiet caller ->
    throttled c m (clock w) = false ->
    timeouts net (sent w) (S retries) ->
    let w' := fetchCryptoData net idle c retries m caller w in
    sent w' = (sent w + retries + 1)%nat /\
    log w' = log w ++ retry_log (clock w) retries
               ++ [EvRequest (clock w + 18000 * Z.of_nat retries);
                   EvAbort (clock w + 18000 * Z.of_nat retries + 15000)] /\
    error (st w') = Some TIMEOUT_MESSAGE /\
    cryptoData (st w') = kept c (cryptoData (st w)) /\
    lastFetchTime (st w') = lastFetchTime (st w).
Proof.
  induction retries as [|retries IH]; intros caller w Hq Hgo Hto;
    apply timeouts_tail in Hto as [Ht Hto].
  - cbv zeta. rewrite (fetch_exhausted net c m caller w Hgo Ht).
    destruct (awaiting_world net m caller w Hq) as (Hs & Hl & Hd & Hf).
    assert (Hc : clock (awaiting net m caller w) = clock w + 15000).
    { rewrite (awaiting_clock net m caller w Hq), (duration_abort _ Ht).
      reflexivity. }
    destruct m; cbn -[awaiting]; rewrite error_keep, cryptoData_keep, lastFetchTime_keep;
      cbn -[awaiting]; rewrite Hs, Hl, Hd, Hf, Hc, Z.add_0_r, <- !app_assoc;
      (repeat split; lia).
  - cbv zeta. rewrite (fetch_retry net c m retries caller w Hgo Ht).
    destruct (retry_world net m caller w Hq Ht) as (Hc & Hs & Hl & Hd & Hf).
    set (w2 := advance RETRY_DELAY _) in *.
    assert (Hgo2 : throttled c m (clock w2) = false).
    { apply (throttled_later c m (clock w)); [exact Hgo | lia]. }
    rewrite <- Hs in Hto.
    specialize (IH (update (finally_ m)) w2 (quiet_finally m) Hgo2 Hto).
    cbv zeta in IH. destruct IH as (I1 & I2 & I3 & I4 & I5).
    rewrite I1, I2, I3, I4, I5, Hs, Hl, Hc, Hd, Hf.
    split; [lia|]. split; [|repeat split].
    rewrite <- !app_assoc. simpl.
    replace (clock w + 18000 + 18000 * Z.of_nat retries)
      with (clock w + 18000 * Z.of_nat (S retries)) by lia.
    reflexivity.
Qed.

(** Every run of attempts either reaches one that settles in time or
    consists of timeouts only. *)
Lemma attempts_cases (n retries : nat) :
  (exists k, (k <= retries)%nat /\ timeouts net n k /\ in_time (net (n + k)%nat)) \/
  timeouts net n (S retries).
Proof.
  induction retries as [|retries IH].
  - destruct (timer_fires (net n)) eqn:E.
    + right. intros i Hi. assert (i = 0)%nat by lia. subst. now rewrite Nat.add_0_r.
    + left. exists 0%nat. rewrite Nat.add_0_r. repeat split; [lia| |exact E].
      intros i Hi. lia.
  - destruct IH as [(k & Hk & Hto & Hin)|Hto].
    + left. exists k. repeat split; [lia|exact Hto|exact Hin].
    + destruct (timer_fires (net (n + S retries)%nat)) eqn:E.
      * right. intros i Hi. destruct (decide (i = S retries)) as [->|Hne];
          [exact E | apply Hto; lia].
      * left. exists (S retries). repeat split; [lia|exact Hto|exact E].
Qed.

End FetcherRuns.

Lemma kept_own (s : State) : kept (useCallback s) (cryptoData s) = cryptoData s.
Proof.
  unfold kept, useCallback. simpl.
  destruct (cryptoData s); reflexivity.
Qed.

Lemma fetch_requested net c m retries caller w :
  quiet caller -> throttled c m (clock w) = false ->
  requested w (fetchCryptoData net idle c retries m caller w).
Proof.
  intros Hq Hgo. unfold requested.
  destruct (attempts_cases net (sent w) retries) as [(k & Hk & Hto & Hin)|Hto].
  - destruct (fetch_settles net c m retries k caller w Hk Hq Hgo Hto Hin) as (_ & Hl & _).
    rewrite Hl. destruct k; simpl.
    + rewrite Z.add_0_r. now exists [].
    + eexists. reflexivity.
  - destruct (fetch_times_out net c m retries caller w Hq Hgo Hto) as (_ & Hl & _).
    rewrite Hl. destruct retries; simpl.
    + rewrite Z.add_0_r. eexists. reflexivity.
    + eexists. reflexivity.
Qed.



Example flaky_run :
  let w' := autoFetch Sample.net_flaky Sample.world0 in
  sent w' = 3%nat /\
  error (st w') = Some RATE_LIMIT_MESSAGE /\
  log w' = [EvRequest 1700000000000; EvAbort 1700000015000; EvWait 3000;
            EvRequest 1700000018000; EvAbort 1700000033000; EvWait 3000;
            EvRequest 1700000036000].
Proof. vm_compute. auto. Qed.

Example dead_run :
  let w' := autoFetch Sample.net_dead Sample.world0 in
  sent w' = 4%nat /\ error (st w') = Some TIMEOUT_MESSAGE /\
  length (List.filter (fun e => match e with EvWait _ => true | _ => false end) (log w')) = 3%nat.
Proof. vm_compute. auto. Qed.

(** With nothing else going on during the call, a call that fails (a failure
    of an attempt within the time limit, or timeouts until the retries are
    used up) leaves an error string in the state and the listings as they
    were. *)
Lemma failed_fetch_keeps_data (net : nat -> Exchange) (m : bool) (w : World)
    (Hgo : throttled (useCallback (st w)) m (clock w) = false)
    (Hfail : fetch_fails net (sent w) MAX_RETRIES) :
  (exists message, error (st (invoke net m w)) = Some message) /\
  cryptoData (st (invoke net m w)) = cryptoData (st w).
Proof.
  unfold invoke. destruct Hfail as [(k & msg & Hk & Hto & Hf)|Hto].
  - pose proof (fails_with_in_time _ _ Hf) as Hin.
    destruct (fetch_settles net _ m MAX_RETRIES k (fun w => w) w Hk quiet_id Hgo Hto Hin)
      as (_ & _ & He & Hd).
    destruct Hf as (e & Ht & _). rewrite Ht in He, Hd. cbn [reported] in He.
    split; [exists msg; exact He|]. destruct Hd as [Hd _]. rewrite Hd. apply kept_own.
  - destruct (fetch_times_out net _ m MAX_RETRIES (fun w => w) w quiet_id Hgo Hto)
      as (_ & _ & He & Hd & _).
    split; [eexists; exact He|]. rewrite Hd. apply kept_own.
Qed.

Example down_run :
  let w' := manualFetch Sample.net_down Sample.world1 in
  error (st w') = Some "Failed to fetch data (HTTP 503)" /\
  cryptoData (st w') = Sample.listing.
Proof. vm_compute. auto. Qed.

(** C2: the first load times out once and retries; while the retry is
    pending the user clicks the refresh button and that call stores the
    listings; the retry is then answered with status 429.  The failed call
    sets the error string, but it tests the length of the list captured by
    its closure, which is 0, and replaces the listings just stored by the
    empty list. *)
Theorem stale_closure_wipes_listings :
  let w' := loadWithClick Sample.net_race 1 Sample.world0 in
  sent w' = 3%nat /\
  lastFetchTime (st w') = 1700000018000 /\
  error (st w') = Some RATE_LIMIT_MESSAGE /\
  cryptoData (st w') = [].
Proof. vm_compute. auto. Qed.

Lemma refreshDisabled_iff (s : State) (now : Z) :
  refreshDisabled s now = true <->
  isRefreshing s = true \/ now - lastFetchTime s < 10000.
Proof.
  unfold refreshDisabled. rewrite orb_true_iff, Z.ltb_lt. reflexivity.
Qed.

(** C3 (as amended): the refresh button is disabled whenever fewer than 10 s
    have elapsed since [lastFetchTime], which is the time at which the last
    successful attempt was started, not the time at which it completed; a
    call changes [lastFetchTime] only by succeeding, and a failed call leaves
    it as it was. *)
Theorem manual_refresh_throttle (net : nat -> Exchange) (m : bool) (w : World) :
  throttle_spec net m w (invoke net m w).
Proof.
  unfold throttle_spec. split; [|split; [|split; [|split]]].
  - intros s render now Hle H. apply refreshDisabled_iff. right. lia.
  - intros s now. apply refreshDisabled_iff.
  - unfold invoke, MAX_RETRIES.
    destruct (throttled (useCallback (st w)) m (clock w)) eqn:Hgo.
    { left. now rewrite fetch_skipped. }
    destruct (attempts_cases net (sent w) 3) as [(k & Hk & Hto & Hin)|Hto].
    + destruct (fetch_settles net _ m 3 k (fun w => w) w Hk quiet_id Hgo Hto Hin)
        as (_ & _ & _ & Hd).
      destruct (try_block (net (sent w + k)%nat)) as [e|data] eqn:Ht.
      * left. apply Hd.
      * right. exists k, data. split; [|apply Hd]. now repeat split.
    + left.
      now destruct (fetch_times_out net _ m 3 (fun w => w) w quiet_id Hgo Hto)
        as (_ & _ & _ & _ & Hf).
  - unfold invoke, MAX_RETRIES.
    destruct (throttled (useCallback (st w)) m (clock w)) eqn:Hgo.
    { intros _. now rewrite fetch_skipped. }
    intros [(k & msg & Hk & Hto & Hf)|Hto].
    + pose proof (fails_with_in_time _ _ Hf) as Hin.
      destruct (fetch_settles net _ m 3 k (fun w => w) w Hk quiet_id Hgo Hto Hin)
        as (_ & _ & _ & Hd).
      destruct Hf as (e & Ht & _). rewrite Ht in Hd. apply Hd.
    + now destruct (fetch_times_out net _ m 3 (fun w => w) w quiet_id Hgo Hto)
        as (_ & _ & _ & _ & Hf).
  - intros k data Hgo (Hk & Hto & Ht). unfold invoke, MAX_RETRIES.
    assert (Hin : in_time (net (sent w + k)%nat)).
    { unfold in_time. destruct (timer_fires _) eqn:E; [|reflexivity].
      rewrite (try_block_abort _ E) in Ht. discriminate. }
    destruct (fetch_settles net _ m 3 k (fun w => w) w Hk quiet_id Hgo Hto Hin)
      as (_ & _ & He & Hd).
    rewrite Ht in He, Hd. cbn [reported] in He. destruct Hd as [Hd Hf]. auto.
Qed.

(** C3 (as stated) fails: a manual refresh started a minute after the last
    fetch is answered with the listings after 12 s; at the moment this fetch
    completes, and for the 10 s that follow, the button is enabled, because
    12 s have passed since the request was started. *)
Lemma throttle_counterexample : ~ throttle_as_stated.
Proof.
  intros H.
  assert (Hok : fetch_succeeds MoreSamples.net_sluggish (sent MoreSamples.world2) 3 0
                  Sample.listing).
  { repeat split; [lia | intros i Hi; lia]. }
  specialize (H MoreSamples.net_sluggish true MoreSamples.world2 0%nat Sample.listing
                (clock (invoke MoreSamples.net_sluggish true MoreSamples.world2))
                eq_refl Hok).
  assert (Hr : clock (invoke MoreSamples.net_sluggish true MoreSamples.world2)
               <= clock (invoke MoreSamples.net_sluggish true MoreSamples.world2)
               < clock (invoke MoreSamples.net_sluggish true MoreSamples.world2) + 10000)
    by lia.
  specialize (H Hr). vm_compute in H. discriminate H.
Qed.

Example sluggish_run :
  let w' := manualFetch MoreSamples.net_sluggish MoreSamples.world2 in
  cryptoData (st w') = Sample.listing /\ error (st w') = None /\
  lastFetchTime (st w') = 1700000060000 /\ clock w' = 1700000072000 /\
  refreshDisabled (st w') (clock w') = false.
Proof. vm_compute. auto 6. Qed.

Example late_run :
  let w' := autoFetch Sample.net_late Sample.world0 in
  lastFetchTime (st w') = 1700000018000 /\ cryptoData (st w') = Sample.listing /\
  clock w' = 1700000018350 /\
  refreshDisabled (st w') (clock w') = true /\
  refreshDisabled (st w') 1700000028000 = false.
Proof. vm_compute. auto. Qed.

Lemma first_attempt_error net m w ename message :
  throttled (useCallback (st w)) m (clock w) = false ->
  try_block (net (sent w)) = inl (ErrorObject ename message) ->
  ename <> "AbortError" ->
  error (st (invoke net m w)) = Some message.
Proof.
  intros Hgo Ht Hne. unfold invoke.
  rewrite (fetch_failure net _ m _ _ w ename message Hgo Ht Hne).
  destruct m; simpl; apply error_keep.
Qed.

(** C4 (as amended): status 429 gives the rate-limit message, any other
    status outside 200-299 gives "Failed to fetch data (HTTP <status>)", a
    body that parses to a JSON value other than an array gives "Invalid data
    received from the server", and a body that does not parse as JSON gives
    the message of the parser's error. *)
Theorem failure_classification (net : nat -> Exchange) (m : bool) (w : World)
    (status : Z) (body : BodyRead)
    (Hgo : throttled (useCallback (st w)) m (clock w) = false)
    (Hans : answered net w status body) :
  classification status body (error (st (invoke net m w))).
Proof.
  destruct Hans as [Hin Hs]. unfold in_time in Hin.
  assert (Ht : forall e msg,
             (if (status =? 429)%Z then inl (ErrorObject "Error" RATE_LIMIT_MESSAGE)
              else if negb (response_ok status)
                   then inl (ErrorObject "Error" (http_failure_message status))
                   else match body with
                        | BodySyntaxError m0 => inl (ErrorObject "SyntaxError" m0)
                        | BodyJson JNotArray => inl (ErrorObject "Error" INVALID_DATA_MESSAGE)
                        | BodyJson (JArray data) => inr data
                        end) = inl (ErrorObject e msg) ->
             e <> "AbortError" ->
             error (st (invoke net m w)) = Some msg).
  { intros e msg H Hne. apply (first_attempt_error net m w e msg Hgo); [|exact Hne].
    unfold try_block, await_fetch. rewrite Hin, Hs. exact H. }
  unfold classification. repeat split.
  - intros ->. apply (Ht "Error"); [reflexivity | discriminate].
  - intros Hne Hok. apply Z.eqb_neq in Hne. rewrite Hne, Hok in Ht.
    apply (Ht "Error"); [reflexivity | discriminate].
  - intros Hok ->. rewrite Hok in Ht.
    destruct (status =? 429)%Z eqn:E.
    + apply Z.eqb_eq in E. subst. discriminate.
    + apply (Ht "Error"); [reflexivity | discriminate].
  - intros Hok msg ->. rewrite Hok in Ht.
    destruct (status =? 429)%Z eqn:E.
    + apply Z.eqb_eq in E. subst. discriminate.
    + apply (Ht "SyntaxError"); [reflexivity | discriminate].
Qed.

Lemma failure_classification_witness :
  throttled (useCallback (st Sample.world0)) false (clock Sample.world0) = false /\
  answered Sample.net_down Sample.world0 503 (BodyJson JNotArray) /\
  classification 503 (BodyJson JNotArray)
    (error (st (invoke Sample.net_down false Sample.world0))).
Proof.
  split; [reflexivity|]. split; [split; reflexivity|].
  apply (failure_classification Sample.net_down false Sample.world0 503 (BodyJson JNotArray)).
  - reflexivity.
  - split; reflexivity.
Defined.

Example http_failure_message_503 :
  error (st (autoFetch Sample.net_down Sample.world0))
  = Some "Failed to fetch data (HTTP 503)".
Proof. vm_compute. reflexivity. Qed.

(** C4 (as stated) fails: a response with status 200 whose body is an HTML
    page is not a JSON array, and the error shown is the parser's message. *)
Lemma classification_counterexample : ~ classification_as_stated.
Proof.
  intros H.
  destruct (H Sample.net_page false Sample.world0 200
              (BodySyntaxError "Unexpected token < in JSON at position 0")
              eq_refl (conj eq_refl eq_refl)) as (_ & _ & H3).
  specialize (H3 eq_refl ltac:(intros data; discriminate)).
  vm_compute in H3. discriminate H3.
Qed.

(** C10: the guard of line 47 skips a call exactly when the call is not
    manual, fewer than 10 s separate the time read from [lastFetchTime] and
    the list held is not empty; a manual call and an automatic call with an
    empty list send their request at once. *)
Theorem internal_throttle_scope (net : nat -> Exchange) (w : World) :
  guard_scope net w.
Proof.
  unfold guard_scope. split; [|split; [|split]].
  - intros c m now. unfold throttled.
    rewrite !andb_true_iff, negb_true_iff, Z.ltb_lt, Nat.ltb_lt. tauto.
  - apply fetch_requested; [apply quiet_id | reflexivity].
  - intros Hd. apply fetch_requested; [apply quiet_id|].
    unfold throttled, useCallback. simpl. rewrite Hd. simpl. apply andb_false_r.
  - intros Ht Hd. unfold autoFetch, invoke. apply fetch_skipped.
    unfold throttled, useCallback. simpl. apply Z.ltb_lt in Ht. rewrite Ht.
    destruct (cryptoData (st w)); [congruence | reflexivity].
Qed.

Example throttled_run :
  autoFetch Sample.net_dead Sample.world1 = Sample.world1 /\
  sent (manualFetch Sample.net_down Sample.world1) = 2%nat.
Proof. vm_compute. auto. Qed.

(** ** The scheduler *)

Section SchedulerFacts.

Import Scheduler.

Lemma step_periods (s : Sys) (e : Ev) : periods_ok s -> periods_ok (step s e).
Proof.
  intros H. destruct e as [|k|k|t]; simpl.
  - exact H.
  - destruct (instances s !! k) as [[i []]|]; try exact H.
    intros t p. simpl. destruct (decide (next_id s = t)) as [->|Hne].
    + rewrite lookup_insert_eq. intros [= <-]. reflexivity.
    + rewrite lookup_insert_ne by exact Hne. apply H.
  - destruct (instances s !! k) as [[[t|] a]|]; try exact H.
    intros t' p. simpl. destruct (decide (t = t')) as [->|Hne].
    + now rewrite lookup_delete_eq.
    + rewrite lookup_delete_ne by exact Hne. apply H.
  - destruct (timers s !! t); exact H.
Qed.

Lemma run_periods (evs : list Ev) (s : Sys) : periods_ok s -> periods_ok (run evs s).
Proof.
  revert s. induction evs as [|e evs IH]; intros s H; [exact H|].
  simpl. apply IH, step_periods, H.
Qed.

(** Running the effect makes exactly one call and registers no interval;
    an interval appears only when the awaited call has settled. *)
Lemma run_effect_once (s : Sys) :
  calls (step s Run) = calls s ++ [InitialCall (length (instances s))] /\
  timers (step s Run) = timers s.
Proof. split; reflexivity. Qed.

Lemma interval_only_after_settle (s : Sys) (e : Ev) (t : positive) :
  timers s !! t = None -> is_Some (timers (step s e) !! t) ->
  exists k, e = Settled k /\ t = next_id s /\
            timers (step s e) !! t = Some AUTO_REFRESH_INTERVAL.
Proof.
  intros Hn Hs. destruct e as [|k|k|t']; simpl in *.
  - rewrite Hn in Hs. now destruct Hs.
  - destruct (instances s !! k) as [[i []]|]; simpl in *;
      try (rewrite Hn in Hs; now destruct Hs).
    destruct (decide (next_id s = t)) as [<-|Hne].
    + exists k. rewrite lookup_insert_eq. auto.
    + rewrite lookup_insert_ne in Hs by exact Hne. rewrite Hn in Hs. now destruct Hs.
  - destruct (instances s !! k) as [[[t'|] a]|]; simpl in *;
      try (rewrite Hn in Hs; now destruct Hs).
    destruct (decide (t' = t)) as [->|Hne].
    + rewrite lookup_delete_eq in Hs. now destruct Hs.
    + rewrite lookup_delete_ne in Hs by exact Hne. rewrite Hn in Hs. now destruct Hs.
  - destruct (timers s !! t'); simpl in *; rewrite Hn in Hs; now destruct Hs.
Qed.

(** Teardown after the initial call has settled cancels the interval. *)
Lemma teardown_after_settle :
  timers (run [Run; Settled 0] init) !! 1%positive = Some 60000 /\
  forall t, timers (run [Run; Settled 0; Cleanup 0] init) !! t = None.
Proof.
  split; [reflexivity|]. intros t.
  change (delete 1%positive (<[1%positive := 60000]> (∅ : gmap positive Z)) !! t = None).
  rewrite delete_insert_eq, delete_empty. apply lookup_empty.
Qed.

(** C5: when the component is torn down while the initial call is still
    awaited, the cleanup finds [intervalId] unset and cancels nothing; the
    call settles afterwards, the interval is registered and it stays
    active, so that the timer keeps calling the fetcher. *)
Theorem interval_survives_early_teardown :
  let s := run [Run; Cleanup 0; Settled 0] init in
  timers (run [Run; Cleanup 0] init) = timers (run [Run] init) /\
  timers s !! 1%positive = Some 60000 /\
  calls (run [Tick 1%positive; Tick 1%positive] s)
  = [InitialCall 0; TimerCall 1%positive; TimerCall 1%positive].
Proof. repeat split. Qed.

End SchedulerFacts.

(** ** Views *)

Section ViewProperties.

Variable recent : string -> bool.
Variable favs : list string.

Lemma view_filter (category : string) (p : CryptoData -> bool)
    (h : Heap.heap) (data : Heap.ref) :
  filterCryptos recent favs category h data = Heap.filter p h data ->
  view recent favs category h data = JSArray.filter p (Heap.read h data).
Proof.
  intros E. unfold view. rewrite E. unfold Heap.filter.
  destruct (Heap.alloc h _) as [h' r] eqn:Ea.
  change h' with (h', r).1. change r with (h', r).2 at 2.
  rewrite <- Ea. apply alloc_read.
Qed.

(** C6: the 'gainers' view of a fetched list [l] is the first ten elements
    (all of them when there are fewer) of [l] rearranged in descending
    order of [price_change_percentage_24h]; it is a new array, and the
    fetched array still holds [l] afterwards. *)
Theorem gainers_view_sorted_top10 (h : Heap.heap) (data : Heap.ref)
    (l : list CryptoData) (Hdata : h !! data = Some l) :
  gainers_spec data l (filterCryptos recent favs "gainers" h data).
Proof.
  unfold gainers_spec, filterCryptos. simpl String.eqb. cbv iota.
  unfold Heap.spread, Heap.sort, Heap.slice.
  assert (Hl : Heap.read h data = l) by (unfold Heap.read; now rewrite Hdata).
  rewrite Hl.
  destruct (Heap.alloc h l) as [h1 copy] eqn:E1.
  assert (Hcopy : copy <> data).
  { change copy with (h1, copy).2. rewrite <- E1. apply alloc_fresh. now rewrite Hdata. }
  assert (Hh1 : h1 !! data = Some l).
  { change h1 with (h1, copy).1. rewrite <- E1, alloc_keeps; [exact Hdata | now rewrite Hdata]. }
  set (h2 := <[copy := JSArray.sort gainers_cmp (Heap.read h1 copy)]> h1).
  assert (Hrc : Heap.read h1 copy = l).
  { change h1 with (h1, copy).1. change copy with (h1, copy).2 at 2.
    rewrite <- E1. apply alloc_read. }
  assert (Hh2 : h2 !! data = Some l).
  { unfold h2. now rewrite lookup_insert_ne. }
  assert (Hr2 : Heap.read h2 copy = JSArray.sort gainers_cmp l).
  { unfold Heap.read, h2. now rewrite lookup_insert_eq, <- Hrc. }
  rewrite Hr2.
  destruct (Heap.alloc h2 _) as [h3 r] eqn:E3. simpl fst. simpl snd.
  assert (Hread : Heap.read h3 r = take 10 (JSArray.sort gainers_cmp l)).
  { change h3 with (h3, r).1. change r with (h3, r).2 at 2.
    rewrite <- E3, alloc_read. unfold JSArray.slice. now rewrite drop_0. }
  repeat split.
  - exists (JSArray.sort gainers_cmp l).
    repeat split; [apply sort_perm | apply sort_desc | exact Hread].
  - rewrite Hread, length_take, (Permutation_length (sort_perm gainers_cmp l)).
    reflexivity.
  - change r with (h3, r).2. rewrite <- E3. apply alloc_fresh. now rewrite Hh2.
  - change h3 with (h3, r).1. rewrite <- E3, alloc_keeps; [exact Hh2 | now rewrite Hh2].
Qed.

(** C7: the 'hot' view consists of exactly the elements whose
    [total_volume] is at least 1,000,000,000, in their original order, and
    the 'meme' view of exactly the elements whose [id] is one of dogecoin,
    shiba-inu, pepe, floki and bonk, in their original order. *)
Theorem hot_and_meme_views (h : Heap.heap) (data : Heap.ref) :
  selects (fun crypto => (1000000000 # 1 <= total_volume crypto)%Q)
          (Heap.read h data) (view recent favs "hot" h data) /\
  selects (fun crypto => id crypto ∈ ["dogecoin"; "shiba-inu"; "pepe"; "floki"; "bonk"])
          (Heap.read h data) (view recent favs "meme" h data).
Proof.
  split.
  - rewrite (view_filter "hot" _ h data eq_refl).
    apply filter_selects. intros x. apply Qle_bool_iff.
  - rewrite (view_filter "meme" _ h data eq_refl).
    apply filter_selects. intros x. apply includes_true.
Qed.

End ViewProperties.

Lemma gainers_view_sorted_top10_witness :
  Sample.heap !! 1%positive = Some Sample.listing /\
  gainers_spec 1%positive Sample.listing
    (filterCryptos (fun _ => false) [] "gainers" Sample.heap 1%positive).
Proof.
  split; [reflexivity|].
  apply (gainers_view_sorted_top10 (fun _ => false) [] Sample.heap 1%positive Sample.listing).
  reflexivity.
Defined.

Example gainers_view_sample :
  view (fun _ => false) [] "gainers" Sample.heap 1%positive
  = [Sample.eth; Sample.btc; Sample.doge].
Proof. vm_compute. reflexivity. Qed.

(** ** Favourites *)

Lemma append_assoc (a b c : string) : ((a ++ b) ++ c = a ++ (b ++ c))%string.
Proof.
  induction a as [|x a IH]; [reflexivity | exact (f_equal (String x) IH)].
Qed.

Lemma snoc_append (cur : string) (c : ascii) (s : string) :
  (JSON.snoc cur c ++ s = cur ++ String c s)%string.
Proof. unfold JSON.snoc. now rewrite append_assoc. Qed.

Lemma append_empty (s : string) : (s ++ "" = s)%string.
Proof.
  induction s as [|x s IH]; [reflexivity | exact (f_equal (String x) IH)].
Qed.

(** Reading the escaped form of one character appends that character. *)
Lemma run_quote_char (c : ascii) (acc : list string) (cur rest : string) :
  JSON.run (JSON.PStr acc cur) (JSON.quote_char c ++ rest)
  = JSON.run (JSON.PStr acc (JSON.snoc cur c)) rest.
Proof.
  destruct c as [[] [] [] [] [] [] [] []]; reflexivity.
Qed.

Lemma run_quote_chars (s : string) (acc : list string) (cur rest : string) :
  JSON.run (JSON.PStr acc cur) (JSON.quote_chars s ++ rest)
  = JSON.run (JSON.PStr acc (cur ++ s)) rest.
Proof.
  revert cur. induction s as [|c s IH]; intros cur; simpl.
  - now rewrite append_empty.
  - now rewrite append_assoc, run_quote_char, IH, snoc_append.
Qed.

(** Reading a quoted element, its opening quote already consumed. *)
Lemma run_quote (s : string) (acc : list string) (rest : string) :
  JSON.run (JSON.PStr acc "") (JSON.quote_chars s ++ String JSON.dquote rest)
  = JSON.run (JSON.PAfter (acc ++ [s])%list) rest.
Proof. rewrite run_quote_chars. reflexivity. Qed.

Lemma quote_unfold (s rest : string) :
  (JSON.quote s ++ rest
   = String JSON.dquote (JSON.quote_chars s ++ String JSON.dquote rest))%string.
Proof.
  unfold JSON.quote.
  change (String JSON.dquote ((JSON.quote_chars s ++ String JSON.dquote "") ++ rest)
          = String JSON.dquote (JSON.quote_chars s ++ String JSON.dquote rest))%string.
  now rewrite append_assoc.
Qed.

Lemma run_join (l : list string) (s : string) (acc : list string) :
  JSON.run (JSON.PStr acc "")
    (JSON.quote_chars s ++ String JSON.dquote
       (match l with [] => "" | _ => "," ++ JSON.join_quoted l end ++ "]"))
  = Some (acc ++ s :: l)%list.
Proof.
  revert s acc. induction l as [|s' l IH]; intros s acc; rewrite run_quote.
  - reflexivity.
  - change (JSON.run (JSON.PNext (acc ++ [s])%list)
              (JSON.join_quoted (s' :: l) ++ "]") = Some (acc ++ s :: s' :: l)%list).
    replace (JSON.join_quoted (s' :: l) ++ "]")%string
      with (JSON.quote s' ++
              (match l with [] => "" | _ => "," ++ JSON.join_quoted l end ++ "]"))%string.
    + rewrite quote_unfold.
      change (JSON.run (JSON.PStr (acc ++ [s])%list "")
                (JSON.quote_chars s' ++ String JSON.dquote
                  (match l with [] => "" | _ => "," ++ JSON.join_quoted l end ++ "]"))
              = Some (acc ++ s :: s' :: l)%list).
      rewrite IH. now rewrite <- app_assoc.
    + destruct l; simpl JSON.join_quoted; [reflexivity|].
      now rewrite !append_assoc.
Qed.

(** [JSON.parse(JSON.stringify(a))] is [a] for every array of strings. *)
Lemma parse_stringify (l : list string) :
  JSON.parse (JSON.stringify l) = Some l.
Proof.
  destruct l as [|s l]; [reflexivity|].
  unfold JSON.parse, JSON.stringify.
  change (JSON.run JSON.PFirst (JSON.join_quoted (s :: l) ++ "]") = Some (s :: l)).
  replace (JSON.join_quoted (s :: l) ++ "]")%string
    with (JSON.quote s ++
            (match l with [] => "" | _ => "," ++ JSON.join_quoted l end ++ "]"))%string.
  - rewrite quote_unfold.
    change (JSON.run (JSON.PStr [] "")
              (JSON.quote_chars s ++ String JSON.dquote
                (match l with [] => "" | _ => "," ++ JSON.join_quoted l end ++ "]"))
            = Some (s :: l)).
    now rewrite run_join.
  - destruct l; simpl JSON.join_quoted; [reflexivity|].
    now rewrite !append_assoc.
Qed.

Lemma stringify_truthy (l : list string) : String.eqb (JSON.stringify l) "" = false.
Proof. reflexivity. Qed.

Lemma init_after_persist (favs : list string) (localStorage : storage) :
  initFavorites (persistFavorites favs (Some localStorage)) = Some favs.
Proof.
  unfold initFavorites, persistFavorites.
  rewrite lookup_insert_eq, stringify_truthy. apply parse_stringify.
Qed.

(** C8: the effect stores the serialisation of the whole list under the key
    [cryptoFavorites] and leaves the other keys alone; after a star is
    clicked the storage mirrors the new list; the initial state read from a
    storage written that way is the list that was written; and it is the
    empty list when the key is absent. *)
Theorem favorites_mirrored_roundtrip (cryptoId : string) (favs : list string)
    (localStorage : storage) :
  mirrored favs (persistFavorites favs (Some localStorage)) /\
  (exists written,
      persistFavorites favs (Some localStorage) = Some written /\
      forall k, k <> "cryptoFavorites" -> written !! k = localStorage !! k) /\
  mirrored (clickStar cryptoId (favs, Some localStorage)).1
           (clickStar cryptoId (favs, Some localStorage)).2 /\
  initFavorites (persistFavorites favs (Some localStorage)) = Some favs /\
  initFavorites (clickStar cryptoId (favs, Some localStorage)).2
    = Some (toggleFavorite cryptoId favs) /\
  initFavorites (Some (delete "cryptoFavorites" localStorage)) = Some [].
Proof.
  repeat split.
  - eexists. split; [reflexivity|]. apply lookup_insert_eq.
  - eexists. split; [reflexivity|]. intros k Hk.
    apply lookup_insert_ne. unfold FAVORITES_KEY. congruence.
  - eexists. split; [reflexivity|]. apply lookup_insert_eq.
  - apply init_after_persist.
  - apply init_after_persist.
  - unfold initFavorites. now rewrite lookup_delete_eq.
Qed.

Example favorites_roundtrip_sample :
  initFavorites (clickStar "pepe" (["bitcoin"; "dogecoin"], Some ∅)).2
  = Some ["bitcoin"; "dogecoin"; "pepe"].
Proof. vm_compute. reflexivity. Qed.

Lemma toggle_present (cryptoId : string) (prev : list string) :
  cryptoId ∈ prev ->
  toggleFavorite cryptoId prev
  = JSArray.filter (fun id' => negb (String.eqb id' cryptoId)) prev.
Proof.
  intros H. apply includes_true in H. unfold toggleFavorite. now rewrite H.
Qed.

Lemma toggle_absent (cryptoId : string) (prev : list string) :
  cryptoId ∉ prev -> toggleFavorite cryptoId prev = (prev ++ [cryptoId])%list.
Proof.
  intros H. apply includes_false in H. unfold toggleFavorite. now rewrite H.
Qed.

Lemma differs_true (cryptoId x : string) :
  negb (String.eqb x cryptoId) = true <-> x <> cryptoId.
Proof.
  rewrite negb_true_iff. destruct (String.eqb_spec x cryptoId); split; congruence.
Qed.

Lemma toggle_meets_spec (cryptoId : string) (prev : list string) :
  toggle_spec cryptoId prev (toggleFavorite cryptoId prev).
Proof.
  split; intros H.
  - rewrite (toggle_present _ _ H).
    pose proof (filter_selects _ _ prev (differs_true cryptoId)) as Hs.
    split; [|exact Hs].
    destruct Hs as (_ & HF & _). rewrite Forall_forall in HF.
    intros Hin. now apply (HF _ Hin).
  - rewrite (toggle_absent _ _ H). split; [reflexivity|].
    rewrite count_occ_app. simpl.
    destruct (string_dec cryptoId cryptoId); [|congruence].
    assert (Hc : count_occ string_dec prev cryptoId = 0%nat).
    { apply count_occ_not_In. now rewrite <- list_elem_of_In. }
    now rewrite Hc.
Qed.

(** C9: toggling a favourite in a duplicate-free list gives a duplicate-free
    list; toggling an identifier that is present removes every occurrence of
    it and keeps the others, and toggling one that is absent appends it
    exactly once. *)
Theorem toggleFavorite_no_duplicates (cryptoId : string) (prev : list string)
    (Hprev : NoDup prev) :
  NoDup (toggleFavorite cryptoId prev) /\
  toggle_spec cryptoId prev (toggleFavorite cryptoId prev).
Proof.
  split; [|apply toggle_meets_spec].
  destruct (decide (cryptoId ∈ prev)) as [Hin|Hin].
  - rewrite (toggle_present _ _ Hin).
    destruct (filter_selects _ _ prev (differs_true cryptoId)) as (Hsub & _).
    eapply sublist_NoDup; eassumption.
  - rewrite (toggle_absent _ _ Hin).
    apply NoDup_app. repeat split; [exact Hprev| |apply NoDup_singleton].
    intros x Hx Hx'. apply list_elem_of_singleton in Hx'. now subst.
Qed.

Lemma toggleFavorite_no_duplicates_witness :
  NoDup ["bitcoin"; "pepe"] /\
  NoDup (toggleFavorite "bitcoin" ["bitcoin"; "pepe"]) /\
  toggle_spec "bitcoin" ["bitcoin"; "pepe"] (toggleFavorite "bitcoin" ["bitcoin"; "pepe"]).
Proof.
  assert (H : NoDup ["bitcoin"; "pepe"]) by (refine (bool_decide_unpack _ _); vm_compute; exact I).
  split; [exact H|].
  apply (toggleFavorite_no_duplicates "bitcoin" ["bitcoin"; "pepe"] H).
Defined.

(** * Further properties *)

(** ** Views *)

Lemma alloc_unused (h : Heap.heap) (v : list CryptoData) :
  h !! (Heap.alloc h v).2 = None.
Proof.
  unfold Heap.alloc. simpl. apply not_elem_of_dom. apply is_fresh.
Qed.

Lemma alloc_grows (h : Heap.heap) (v : list CryptoData) (r : Heap.ref) :
  (Heap.alloc h v).1 !! r = None -> h !! r = None.
Proof.
  unfold Heap.alloc. simpl. intros H.
  destruct (decide (fresh (dom h) = r)) as [<-|Hne].
  - now rewrite lookup_insert_eq in H.
  - now rewrite lookup_insert_ne in H.
Qed.

Section MoreViewProperties.

Variable recent : string -> bool.
Variable favs : list string.

(** The array every view evaluates to, by category. *)
Lemma view_cases (category : string) (h : Heap.heap) (data : Heap.ref) :
  let l := Heap.read h data in
  view recent favs category h data =
    if String.eqb category "favorites" then
      JSArray.filter (fun crypto => JSArray.includes favs (id crypto)) l
    else if String.eqb category "hot" then
      JSArray.filter (fun crypto => Qle_bool HOT_THRESHOLD (total_volume crypto)) l
    else if String.eqb category "new" then
      JSArray.filter (fun crypto => recent (ath_date crypto)) l
    else if String.eqb category "gainers" then
      take 10 (JSArray.sort gainers_cmp l)
    else if String.eqb category "meme" then
      JSArray.filter (fun crypto => JSArray.includes MEME_COINS (id crypto)) l
    else take 10 l.
Proof.
  intros l. unfold view, filterCryptos.
  assert (Hf : forall p, (let '(h', r) := Heap.filter p h data in Heap.read h' r)
                         = JSArray.filter p l).
  { intros p. unfold Heap.filter.
    destruct (Heap.alloc h _) as [h' r] eqn:E.
    change h' with (h', r).1. change r with (h', r).2 at 2.
    rewrite <- E. apply alloc_read. }
  assert (Hs : forall h0 r0, (let '(h', r) := Heap.slice 0 10 h0 r0 in Heap.read h' r)
                             = take 10 (Heap.read h0 r0)).
  { intros h0 r0. unfold Heap.slice.
    destruct (Heap.alloc h0 _) as [h' r] eqn:E.
    change h' with (h', r).1. change r with (h', r).2 at 2.
    rewrite <- E, alloc_read. unfold JSArray.slice. now rewrite drop_0. }
  destruct (String.eqb category "favorites"); [apply Hf|].
  destruct (String.eqb category "hot"); [apply Hf|].
  destruct (String.eqb category "new"); [apply Hf|].
  destruct (String.eqb category "gainers").
  - unfold Heap.spread, Heap.sort.
    destruct (Heap.alloc h (Heap.read h data)) as [h1 copy] eqn:E1.
    rewrite Hs. unfold Heap.read at 1. rewrite lookup_insert_eq. simpl.
    replace (Heap.read h1 copy) with l; [reflexivity|].
    change h1 with (h1, copy).1. change copy with (h1, copy).2 at 2.
    rewrite <- E1. symmetry. apply alloc_read.
  - destruct (String.eqb category "meme"); [apply Hf | apply Hs].
Qed.

(** X1: The 'favorites' view consists of exactly the fetched coins whose [id] is
    a favourite, and the 'new' view of exactly those that pass the date
    test, both in the order of the fetched list. *)
Theorem favorites_and_new_views (h : Heap.heap) (data : Heap.ref) :
  selects (fun crypto => id crypto ∈ favs)
          (Heap.read h data) (view recent favs "favorites" h data) /\
  selects (fun crypto => recent (ath_date crypto) = true)
          (Heap.read h data) (view recent favs "new" h data).
Proof.
  split.
  - rewrite (view_cases "favorites"). simpl.
    apply filter_selects. intros x. apply includes_true.
  - rewrite (view_cases "new"). simpl.
    apply filter_selects. intros x. reflexivity.
Qed.

(** X2: No view changes an array that exists: whatever the category, the array
    returned is one that was not allocated before, and every array allocated
    before holds afterwards what it held. *)
Theorem views_never_mutate (category : string) (h : Heap.heap) (data : Heap.ref) :
  h !! (filterCryptos recent favs category h data).2 = None /\
  forall r, is_Some (h !! r) ->
            (filterCryptos recent favs category h data).1 !! r = h !! r.
Proof.
  unfold filterCryptos.
  assert (Ha : forall h0 v,
             (forall r, h0 !! r = None -> h !! r = None) ->
             (forall r, is_Some (h !! r) -> h0 !! r = h !! r) ->
             h !! (Heap.alloc h0 v).2 = None /\
             forall r, is_Some (h !! r) -> (Heap.alloc h0 v).1 !! r = h !! r).
  { intros h0 v Hnone Hsame. split.
    - apply Hnone, alloc_unused.
    - intros r Hr. rewrite alloc_keeps; [now apply Hsame|].
      pose proof (Hsame r Hr) as E. destruct Hr as [x Hx]. exists x.
      etransitivity; [exact E | exact Hx]. }
  destruct (String.eqb category "favorites"); [now apply Ha|].
  destruct (String.eqb category "hot"); [now apply Ha|].
  destruct (String.eqb category "new"); [now apply Ha|].
  destruct (String.eqb category "gainers"); [|destruct (String.eqb category "meme"); now apply Ha].
  unfold Heap.spread, Heap.sort, Heap.slice.
  destruct (Heap.alloc h (Heap.read h data)) as [h1 copy] eqn:E1.
  assert (Hcopy : h !! copy = None).
  { change copy with (h1, copy).2. rewrite <- E1. apply alloc_unused. }
  assert (Hh1 : forall r, is_Some (h !! r) -> h1 !! r = h !! r).
  { intros r Hr. change h1 with (h1, copy).1. rewrite <- E1. now apply alloc_keeps. }
  assert (Hn1 : forall r, h1 !! r = None -> h !! r = None).
  { intros r Hr. change h1 with (h1, copy).1 in Hr. rewrite <- E1 in Hr.
    now apply alloc_grows in Hr. }
  apply Ha.
  - intros r Hr. destruct (decide (copy = r)) as [<-|Hne]; [exact Hcopy|].
    rewrite lookup_insert_ne in Hr by exact Hne. now apply Hn1.
  - intros r Hr. rewrite lookup_insert_ne; [now apply Hh1|].
    intros <-. destruct Hr as [x Hx].
    pose proof (eq_trans (eq_sym Hx) Hcopy) as E. discriminate E.
Qed.

(** X3: Every view shows coins of the fetched list only, and no more of them
    than were fetched; the 'gainers' view and the view of a tab without a
    filter show at most ten. *)
Theorem views_within_listing (category : string) (h : Heap.heap) (data : Heap.ref) :
  let l := Heap.read h data in
  let v := view recent favs category h data in
  (forall crypto, crypto ∈ v -> crypto ∈ l) /\
  (length v <= length l)%nat /\
  ((category = "gainers" \/
    (category <> "favorites" /\ category <> "hot" /\ category <> "new" /\
     category <> "meme")) -> (length v <= 10)%nat).
Proof.
  intros l v. unfold v. rewrite view_cases. fold l.
  assert (Hf : forall p : CryptoData -> bool,
             (forall crypto, crypto ∈ JSArray.filter p l -> crypto ∈ l) /\
             (length (JSArray.filter p l) <= length l)%nat).
  { intros p. split.
    - intros x Hx. apply list_elem_of_In, filter_In in Hx. apply list_elem_of_In, Hx.
    - apply filter_length_le. }
  assert (Ht : forall s : list CryptoData, Permutation s l ->
             (forall crypto, crypto ∈ take 10 s -> crypto ∈ l) /\
             (length (take 10 s) <= length l)%nat /\ (length (take 10 s) <= 10)%nat).
  { intros s Hs. split; [|split].
    - intros x Hx. rewrite <- Hs. now apply (subseteq_take 10 s).
    - rewrite length_take, (Permutation_length Hs). lia.
    - rewrite length_take. lia. }
  destruct (String.eqb_spec category "favorites") as [->|H1].
  { destruct (Hf (fun crypto => JSArray.includes favs (id crypto))) as [A B].
    repeat split; auto. intros [?|(? & _)]; congruence. }
  destruct (String.eqb_spec category "hot") as [->|H2].
  { destruct (Hf (fun crypto => Qle_bool HOT_THRESHOLD (total_volume crypto))) as [A B].
    repeat split; auto. intros [?|(_ & ? & _)]; congruence. }
  destruct (String.eqb_spec category "new") as [->|H3].
  { destruct (Hf (fun crypto => recent (ath_date crypto))) as [A B].
    repeat split; auto. intros [?|(_ & _ & ? & _)]; congruence. }
  destruct (String.eqb_spec category "gainers") as [->|H4].
  { destruct (Ht _ (sort_perm gainers_cmp l)) as (A & B & C). auto. }
  destruct (String.eqb_spec category "meme") as [->|H5].
  { destruct (Hf (fun crypto => JSArray.includes MEME_COINS (id crypto))) as [A B].
    repeat split; auto. intros [?|(_ & _ & _ & ?)]; congruence. }
  destruct (Ht l (Permutation_refl l)) as (A & B & C). auto.
Qed.

(** X4: A tab without a filter of its own, 'all' among them, shows the first ten
    fetched coins in their order and nothing else. *)
Theorem unfiltered_view_first_ten (category : string) (h : Heap.heap) (data : Heap.ref)
    (H1 : category <> "favorites") (H2 : category <> "hot") (H3 : category <> "new")
    (H4 : category <> "gainers") (H5 : category <> "meme") :
  view recent favs category h data = take 10 (Heap.read h data) /\
  length (view recent favs category h data) = Nat.min 10 (length (Heap.read h data)).
Proof.
  rewrite view_cases. cbv zeta.
  apply String.eqb_neq in H1, H2, H3, H4, H5. rewrite H1, H2, H3, H4, H5.
  split; [reflexivity | apply length_take].
Qed.


End MoreViewProperties.

Lemma unfiltered_view_first_ten_witness :
  "all" <> "favorites" /\ "all" <> "hot" /\ "all" <> "new" /\
  "all" <> "gainers" /\ "all" <> "meme" /\
  view (fun _ => false) [] "all" Sample.heap 1%positive
  = take 10 (Heap.read Sample.heap 1%positive) /\
  length (view (fun _ => false) [] "all" Sample.heap 1%positive)
  = Nat.min 10 (length (Heap.read Sample.heap 1%positive)).
Proof.
  assert (H1 : "all" <> "favorites") by discriminate.
  assert (H2 : "all" <> "hot") by discriminate.
  assert (H3 : "all" <> "new") by discriminate.
  assert (H4 : "all" <> "gainers") by discriminate.
  assert (H5 : "all" <> "meme") by discriminate.
  repeat (split; [assumption|]).
  apply (unfiltered_view_first_ten (fun _ => false) [] "all" Sample.heap 1%positive
           H1 H2 H3 H4 H5).
Defined.

(** ** The 'gainers' ranking *)

Lemma sorted_app_order {A} (R : A -> A -> Prop) (a b : list A) :
  StronglySorted R (a ++ b) -> forall x y, x ∈ a -> y ∈ b -> R x y.
Proof.
  induction a as [|z a IH]; simpl; intros Hs x y Hx Hy.
  - now apply elem_of_nil in Hx.
  - apply StronglySorted_inv in Hs as [Hs Hz].
    apply elem_of_cons in Hx as [->|Hx].
    + rewrite Forall_forall in Hz. apply Hz. apply elem_of_app. now right.
    + now apply IH.
Qed.

Lemma with_change_insert (q : Q) (x : CryptoData) (l : list CryptoData) :
  with_change q (JSArray.insert gainers_cmp x l) = with_change q (x :: l).
Proof.
  induction l as [|y l IH]; [reflexivity|].
  simpl JSArray.insert.
  destruct (JSArray.is_positive (gainers_cmp x y)) eqn:E; [|reflexivity].
  apply is_positive_lt in E.
  unfold with_change in *. simpl in *. rewrite IH.
  destruct (Qeq_bool (change x) q) eqn:Ex; destruct (Qeq_bool (change y) q) eqn:Ey;
    try reflexivity.
  apply Qeq_bool_iff in Ex, Ey. unfold change in *.
  rewrite Ex, Ey in E. now apply Qlt_irrefl in E.
Qed.

Lemma with_change_sort (q : Q) (l : list CryptoData) :
  with_change q (JSArray.sort gainers_cmp l) = with_change q l.
Proof.
  induction l as [|x l IH]; [reflexivity|].
  simpl JSArray.sort. rewrite with_change_insert.
  unfold with_change in *. simpl. now rewrite IH.
Qed.

Section GainersRanking.

Variable recent : string -> bool.
Variable favs : list string.

(** X6: The 'gainers' view keeps the best: the fetched coins split into the ones
    shown and the rest, and no coin of the rest has a greater 24h change than
    a coin shown. *)
Theorem gainers_view_keeps_the_best (h : Heap.heap) (data : Heap.ref) :
  exists rest,
    Permutation (view recent favs "gainers" h data ++ rest) (Heap.read h data) /\
    forall shown other,
      shown ∈ view recent favs "gainers" h data -> other ∈ rest ->
      (change other <= change shown)%Q.
Proof.
  rewrite (view_cases recent favs "gainers"). simpl.
  set (l := Heap.read h data). set (s := JSArray.sort gainers_cmp l).
  exists (drop 10 s). split.
  - rewrite take_drop. apply sort_perm.
  - intros x y Hx Hy.
    apply (sorted_app_order desc (take 10 s) (drop 10 s)); trivial.
    rewrite take_drop. apply sort_desc.
Qed.

(** X7: The ranking is stable: the coins of the 'gainers' view that have a given
    24h change appear in the order they have in the fetched list, and they
    are the first of the fetched coins with that change. *)
Theorem gainers_view_stable (h : Heap.heap) (data : Heap.ref) (q : Q) :
  with_change q (view recent favs "gainers" h data)
    `prefix_of` with_change q (Heap.read h data).
Proof.
  rewrite (view_cases recent favs "gainers"). simpl.
  set (l := Heap.read h data). set (s := JSArray.sort gainers_cmp l).
  rewrite <- (with_change_sort q l). fold s.
  exists (with_change q (drop 10 s)).
  unfold with_change. rewrite <- List.filter_app. now rewrite take_drop.
Qed.

End GainersRanking.

(** ** Stars *)

Lemma includes_app (l k : list string) (x : string) :
  JSArray.includes (l ++ k) x = JSArray.includes l x || JSArray.includes k x.
Proof. unfold JSArray.includes. apply existsb_app. Qed.

Lemma includes_filter_out (i x : string) (l : list string) :
  JSArray.includes (JSArray.filter (fun id' => negb (String.eqb id' i)) l) x
  = negb (String.eqb x i) && JSArray.includes l x.
Proof.
  unfold JSArray.includes, JSArray.filter.
  induction l as [|y l IH]; simpl; [now rewrite andb_false_r|].
  destruct (String.eqb_spec y i) as [->|Hy]; simpl.
  - rewrite IH. destruct (String.eqb_spec x i) as [->|Hx]; reflexivity.
  - rewrite IH. destruct (String.eqb_spec x y) as [->|Hxy]; simpl.
    + apply String.eqb_neq in Hy. now rewrite Hy.
    + reflexivity.
Qed.

Lemma toggle_flips (i : string) (prev : list string) (x : string) :
  JSArray.includes (toggleFavorite i prev) x
  = if String.eqb x i then negb (JSArray.includes prev i) else JSArray.includes prev x.
Proof.
  unfold toggleFavorite. destruct (JSArray.includes prev i) eqn:E.
  - rewrite includes_filter_out. now destruct (String.eqb x i).
  - rewrite includes_app. unfold JSArray.includes at 2. simpl.
    destruct (String.eqb_spec x i) as [->|Hx]; simpl.
    + now rewrite E.
    + now rewrite !orb_false_r.
Qed.

(** X8: A click on the star of a coin flips the star of the coins with that [id]
    and of no other coin. *)
Theorem star_click_flips_one (cryptoId : string) (favs : list string)
    (crypto : CryptoData) :
  starred (toggleFavorite cryptoId favs) crypto
  = if String.eqb (id crypto) cryptoId then negb (starred favs crypto)
    else starred favs crypto.
Proof.
  unfold starred. rewrite toggle_flips.
  destruct (String.eqb_spec (id crypto) cryptoId) as [->|H]; reflexivity.
Qed.

Lemma filter_out_absent (i : string) (l : list string) :
  i ∉ l -> JSArray.filter (fun id' => negb (String.eqb id' i)) l = l.
Proof.
  unfold JSArray.filter. induction l as [|y l IH]; intros H; [reflexivity|].
  apply not_elem_of_cons in H as [Hy H]. simpl.
  destruct (String.eqb_spec y i) as [->|_]; [congruence|].
  simpl. now rewrite IH.
Qed.

(** X9: Two clicks on the same star: a coin that was no favourite is no
    favourite again and the list is as it was; a coin that was a favourite is
    one again, now at the end of the list. *)
Theorem star_click_twice (cryptoId : string) (prev : list string) :
  toggleFavorite cryptoId (toggleFavorite cryptoId prev)
  = if JSArray.includes prev cryptoId
    then JSArray.filter (fun id' => negb (String.eqb id' cryptoId)) prev ++ [cryptoId]
    else prev.
Proof.
  destruct (JSArray.includes prev cryptoId) eqn:E.
  - pose proof (toggle_flips cryptoId prev cryptoId) as F.
    rewrite String.eqb_refl, E in F. simpl in F.
    unfold toggleFavorite at 1. rewrite F.
    unfold toggleFavorite. now rewrite E.
  - pose proof (toggle_flips cryptoId prev cryptoId) as F.
    rewrite String.eqb_refl, E in F. simpl in F.
    unfold toggleFavorite at 1. rewrite F.
    unfold toggleFavorite. rewrite E.
    apply includes_false in E.
    unfold JSArray.filter. rewrite List.filter_app. simpl.
    rewrite String.eqb_refl. simpl. rewrite app_nil_r.
    now apply filter_out_absent.
Qed.

Lemma clicks_fst (ids : list string) (fw : list string * option storage) :
  (clicks ids fw).1 = fold_left (fun favs i => toggleFavorite i favs) ids fw.1.
Proof.
  revert fw. induction ids as [|i ids IH]; intros fw; [reflexivity|].
  unfold clicks in *. simpl. now rewrite IH.
Qed.

(** X10: After a series of clicks on stars a coin is a favourite exactly when it
    was one before and its star was clicked an even number of times, or it
    was none and its star was clicked an odd number of times. *)
Theorem star_clicks_parity (ids : list string) (favs : list string)
    (window : option storage) (x : string) :
  JSArray.includes (clicks ids (favs, window)).1 x
  = xorb (JSArray.includes favs x) (Nat.odd (count_occ string_dec ids x)).
Proof.
  rewrite clicks_fst. simpl. revert favs.
  induction ids as [|i ids IH]; intros favs; simpl.
  - now rewrite xorb_false_r.
  - rewrite IH, toggle_flips.
    destruct (string_dec i x) as [->|Hne].
    + rewrite String.eqb_refl, Nat.odd_succ, <- Nat.negb_odd.
      destruct (JSArray.includes favs x), (Nat.odd (count_occ string_dec ids x));
        reflexivity.
    + destruct (String.eqb_spec x i) as [->|_]; [congruence | reflexivity].
Qed.

Section FavoritesTab.

Variable recent : string -> bool.

(** X11: After a click on the star of [cryptoId] the favourites tab shows exactly:
    the fetched coins with that [id] when it was no favourite before, and
    the fetched coins with another [id] that were favourites before. *)
Theorem favorites_tab_after_click (cryptoId : string) (favs : list string)
    (h : Heap.heap) (data : Heap.ref) :
  selects (fun crypto => (id crypto = cryptoId /\ cryptoId ∉ favs) \/
                         (id crypto <> cryptoId /\ id crypto ∈ favs))
          (Heap.read h data)
          (view recent (toggleFavorite cryptoId favs) "favorites" h data).
Proof.
  rewrite (view_cases recent _ "favorites"). simpl.
  apply filter_selects. intros x. rewrite toggle_flips.
  destruct (String.eqb_spec (id x) cryptoId) as [E|E].
  - rewrite negb_true_iff, includes_false. split.
    + intros H. now left.
    + intros [[_ H]|[H _]]; [exact H | congruence].
  - rewrite includes_true. split.
    + intros H. now right.
    + intros [[H _]|[_ H]]; [congruence | exact H].
Qed.

End FavoritesTab.

(** ** Favourites over a session *)

Lemma init_of_mirrored (favs : list string) (window : option storage) :
  mirrored favs window -> initFavorites window = Some favs.
Proof.
  intros (ls & -> & H). unfold initFavorites, FAVORITES_KEY.
  rewrite H, stringify_truthy. apply parse_stringify.
Qed.

(** X12: From start-up through any series of clicks on stars the storage mirrors
    the favourites: the key holds the serialised list, a reload reads back
    exactly the current list, and no other key of the storage is touched. *)
Theorem favorites_survive_reload (ids : list string) (favs0 : list string)
    (localStorage : storage) :
  let out := clicks ids (mountFavorites favs0 (Some localStorage)) in
  mirrored out.1 out.2 /\
  initFavorites out.2 = Some out.1 /\
  exists written,
    out.2 = Some written /\
    forall k, k <> "cryptoFavorites" -> written !! k = localStorage !! k.
Proof.
  cbv zeta.
  assert (H : forall fw,
             (mirrored fw.1 fw.2 /\
              exists written, fw.2 = Some written /\
                forall k, k <> "cryptoFavorites" -> written !! k = localStorage !! k) ->
             mirrored (clicks ids fw).1 (clicks ids fw).2 /\
             exists written, (clicks ids fw).2 = Some written /\
               forall k, k <> "cryptoFavorites" -> written !! k = localStorage !! k).
  { induction ids as [|i ids IH]; intros fw Hfw; [exact Hfw|].
    unfold clicks in *. simpl. apply IH.
    destruct fw as [f w]. destruct Hfw as (_ & written & Hw & Hk). simpl in *. subst w.
    unfold clickStar. simpl. split.
    - eexists. split; [reflexivity|]. apply lookup_insert_eq.
    - eexists. split; [reflexivity|]. intros k Hne.
      rewrite lookup_insert_ne by (unfold FAVORITES_KEY; congruence). now apply Hk. }
  destruct (H (mountFavorites favs0 (Some localStorage))) as (Hm & Hw).
  - unfold mountFavorites. simpl. split.
    + eexists. split; [reflexivity|]. apply lookup_insert_eq.
    + eexists. split; [reflexivity|]. intros k Hne.
      apply lookup_insert_ne. unfold FAVORITES_KEY. congruence.
  - split; [exact Hm|]. split; [now apply init_of_mirrored | exact Hw].
Qed.

(** ** The fetcher: what a call leaves alone *)

Lemma flag_only_quiet (m : bool) (f : World -> World) : flag_only m f -> quiet f.
Proof. intros H w. destruct (H w) as (A & B & C & D & E & _). auto. Qed.

Lemma flag_only_id (m : bool) : flag_only m (fun w => w).
Proof. intros w. destruct m; auto 10. Qed.

Lemma flag_only_finally (m : bool) : flag_only m (update (finally_ m)).
Proof. intros w. destruct m; simpl; auto 10. Qed.

Lemma duration_bounds (x : Exchange) : 0 <= duration x <= 15000.
Proof. unfold duration, FETCH_TIMEOUT. lia. Qed.

Lemma duration_in_time (x : Exchange) :
  timer_fires x = false -> duration x = Z.of_N (latency x).
Proof.
  unfold timer_fires, duration, FETCH_TIMEOUT. intros H. apply Z.leb_gt in H. lia.
Qed.

Section FetcherFrame.

Variable net : nat -> Exchange.
Variable c : Closure.
Variable m : bool.

Lemma awaiting_rest caller w :
  flag_only m caller ->
  favorites (st (awaiting net m caller w)) = favorites (st w) /\
  (if m then loading (st (awaiting net m caller w)) = loading (st w)
   else isRefreshing (st (awaiting net m caller w)) = isRefreshing (st w)).
Proof.
  intros Hf. unfold awaiting.
  destruct (Hf (send (update (begin_ m) w))) as (_ & _ & _ & _ & _ & Hfav & Hflag).
  simpl. rewrite Hfav. split; [destruct m; reflexivity|].
  destruct m; rewrite Hflag; reflexivity.
Qed.

Lemma fetch_frame (retries : nat) :
  forall caller w,
    flag_only m caller ->
    throttled c m (clock w) = false ->
    call_frame m retries w (fetchCryptoData net idle c retries m caller w).
Proof.
  induction retries as [|retries IH]; intros caller w Hf Hgo;
    pose proof (flag_only_quiet m caller Hf) as Hq;
    destruct (awaiting_world net m caller w Hq) as (Hs & _);
    pose proof (awaiting_clock net m caller w Hq) as Hc;
    destruct (awaiting_rest caller w Hf) as (Hfav & Hflag);
    pose proof (duration_bounds (net (sent w))) as Hd;
    destruct (timer_fires (net (sent w))) eqn:Ht.
  - rewrite (fetch_exhausted net c m caller w Hgo Ht). unfold call_frame.
    destruct m; cbn -[awaiting]; rewrite ?cryptoData_keep;
      unfold keep_existing; destruct (seen_length c =? 0)%nat; cbn -[awaiting];
      rewrite Hs, Hfav, Hflag; (repeat split; lia).
  - destruct (try_block_in_time _ Ht) as [(data & Hb)|(e & msg & Hb & Hne)].
    + rewrite (fetch_success net c m 0 caller w data Hgo Hb). unfold call_frame.
      destruct m; cbn -[awaiting]; rewrite Hs, Hfav, Hflag; (repeat split; lia).
    + rewrite (fetch_failure net c m 0 caller w e msg Hgo Hb Hne). unfold call_frame.
      destruct m; cbn -[awaiting];
        unfold keep_existing; destruct (seen_length c =? 0)%nat; cbn -[awaiting];
        rewrite Hs, Hfav, Hflag; (repeat split; lia).
  - rewrite (fetch_retry net c m retries caller w Hgo Ht).
    destruct (retry_world net m caller w Hq Ht) as (Hc2 & Hs2 & _).
    set (w2 := advance RETRY_DELAY _) in *.
    assert (Hgo2 : throttled c m (clock w2) = false).
    { apply (throttled_later c m (clock w)); [exact Hgo | lia]. }
    assert (Hfav2 : favorites (st w2) = favorites (st w)) by exact Hfav.
    assert (Hflag2 : if m then loading (st w2) = loading (st w)
                     else isRefreshing (st w2) = isRefreshing (st w)) by exact Hflag.
    specialize (IH (update (finally_ m)) w2 (flag_only_finally m) Hgo2).
    unfold call_frame in *. destruct IH as (I1 & I2 & I3).
    rewrite I2, Hfav2, Hs2 in *.
    split; [|split; [reflexivity|lia]].
    destruct m; destruct I1 as [I1 I1']; rewrite I1, I1', Hflag2; auto.
  - destruct (try_block_in_time _ Ht) as [(data & Hb)|(e & msg & Hb & Hne)].
    + rewrite (fetch_success net c m _ caller w data Hgo Hb). unfold call_frame.
      destruct m; cbn -[awaiting]; rewrite Hs, Hfav, Hflag; (repeat split; lia).
    + rewrite (fetch_failure net c m _ caller w e msg Hgo Hb Hne). unfold call_frame.
      destruct m; cbn -[awaiting];
        unfold keep_existing; destruct (seen_length c =? 0)%nat; cbn -[awaiting];
        rewrite Hs, Hfav, Hflag; (repeat split; lia).
Qed.

(** The time at which a call ends whose attempt number [k] settles. *)
Lemma fetch_settles_clock (retries : nat) :
  forall k caller w,
    (k <= retries)%nat -> quiet caller ->
    throttled c m (clock w) = false ->
    timeouts net (sent w) k -> in_time (net (sent w + k)%nat) ->
    clock (fetchCryptoData net idle c retries m caller w)
    = clock w + 18000 * Z.of_nat k + duration (net (sent w + k)%nat).
Proof.
  induction retries as [|retries IH]; intros k caller w Hk Hq Hgo Hto Hin;
    pose proof (awaiting_clock net m caller w Hq) as Hc.
  - assert (k = 0)%nat by lia. subst k. rewrite Nat.add_0_r in *.
    destruct (try_block_in_time _ Hin) as [(data & Hb)|(e & msg & Hb & Hne)].
    + rewrite (fetch_success net c m 0 caller w data Hgo Hb).
      cbn -[awaiting]. rewrite Hc. lia.
    + rewrite (fetch_failure net c m 0 caller w e msg Hgo Hb Hne).
      cbn -[awaiting]. rewrite Hc. lia.
  - destruct k as [|k].
    + rewrite Nat.add_0_r in *.
      destruct (try_block_in_time _ Hin) as [(data & Hb)|(e & msg & Hb & Hne)].
      * rewrite (fetch_success net c m _ caller w data Hgo Hb).
        cbn -[awaiting]. rewrite Hc. lia.
      * rewrite (fetch_failure net c m _ caller w e msg Hgo Hb Hne).
        cbn -[awaiting]. rewrite Hc. lia.
    + apply timeouts_tail in Hto as [Ht Hto].
      rewrite (fetch_retry net c m retries caller w Hgo Ht).
      destruct (retry_world net m caller w Hq Ht) as (Hc2 & Hs2 & _).
      set (w2 := advance RETRY_DELAY _) in *.
      assert (Hgo2 : throttled c m (clock w2) = false).
      { apply (throttled_later c m (clock w)); [exact Hgo | lia]. }
      replace (sent w + S k)%nat with (sent w2 + k)%nat in * by lia.
      rewrite <- Hs2 in Hto.
      rewrite (IH k (update (finally_ m)) w2 ltac:(lia) (quiet_finally m) Hgo2 Hto Hin).
      rewrite Hc2. lia.
Qed.

End FetcherFrame.

(** X13: With nothing else handled while it is pending, a call that is not
    skipped and has come to its end leaves its own progress flag off,
    whatever the network did; it leaves the other flag and the favourites
    alone and has sent between one and four requests. *)
Theorem call_keeps_to_itself (net : nat -> Exchange) (m : bool) (w : World)
    (Hgo : throttled (useCallback (st w)) m (clock w) = false) :
  call_frame m 3 w (invoke net m w).
Proof. apply fetch_frame; [apply flag_only_id | exact Hgo]. Qed.

Lemma call_keeps_to_itself_witness :
  throttled (useCallback (st Sample.world0)) false (clock Sample.world0) = false /\
  call_frame false 3 Sample.world0 (invoke Sample.net_down false Sample.world0).
Proof.
  split; [reflexivity|].
  apply (call_keeps_to_itself Sample.net_down false Sample.world0). reflexivity.
Defined.

(** X14: The first render shows the spinner, and when the call made on load has
    ended the spinner is gone, whether listings were fetched or not. *)
Theorem spinner_ends_with_first_load (net : nat -> Exchange) (favs : list string)
    (now : Z) (n : nat) (events : list Event) :
  showsSpinner (initialState favs) = true /\
  showsSpinner (st (autoFetch net (mkWorld (initialState favs) now n events))) = false.
Proof.
  split; [reflexivity|].
  destruct (fetch_frame net (useCallback (initialState favs)) false 3 (fun w => w)
              (mkWorld (initialState favs) now n events) (flag_only_id false))
    as ((Hl & _) & _).
  - unfold throttled. simpl. apply andb_false_r.
  - unfold showsSpinner, autoFetch, invoke, MAX_RETRIES. simpl st at 2.
    rewrite Hl. reflexivity.
Qed.

(** X15: A request that fails on the network within the time limit is not
    retried: the error shown is the message of the failure, one request was
    sent, and listings and timestamp are as before. *)
Theorem network_failure_reported (net : nat -> Exchange) (m : bool) (w : World)
    (message : string)
    (Hgo : throttled (useCallback (st w)) m (clock w) = false)
    (Hin : in_time (net (sent w)))
    (Hnet : settle (net (sent w)) = NetworkFailure message) :
  error (st (invoke net m w)) = Some message /\
  sent (invoke net m w) = S (sent w) /\
  cryptoData (st (invoke net m w)) = cryptoData (st w) /\
  lastFetchTime (st (invoke net m w)) = lastFetchTime (st w).
Proof.
  assert (Hb : try_block (net (sent w)) = inl (ErrorObject "TypeError" message)).
  { unfold try_block, await_fetch. unfold in_time in Hin. now rewrite Hin, Hnet. }
  assert (Hto : timeouts net (sent w) 0) by (intros i Hi; lia).
  assert (Hin0 : in_time (net (sent w + 0)%nat)) by now rewrite Nat.add_0_r.
  unfold invoke.
  destruct (fetch_settles net _ m MAX_RETRIES 0 (fun w => w) w ltac:(unfold MAX_RETRIES; lia)
              quiet_id Hgo Hto Hin0) as (H1 & _ & H3 & H4).
  rewrite Nat.add_0_r in *. rewrite Hb in H3, H4. cbn [reported] in H3.
  destruct H4 as [H4 H5]. rewrite kept_own in H4.
  repeat split; [exact H3 | rewrite H1; lia | exact H4 | exact H5].
Qed.

Lemma network_failure_reported_witness :
  throttled (useCallback (st Sample.world1)) true (clock Sample.world1) = false /\
  in_time (MoreSamples.net_offline (sent Sample.world1)) /\
  settle (MoreSamples.net_offline (sent Sample.world1)) = NetworkFailure "Failed to fetch" /\
  error (st (invoke MoreSamples.net_offline true Sample.world1)) = Some "Failed to fetch" /\
  sent (invoke MoreSamples.net_offline true Sample.world1) = S (sent Sample.world1) /\
  cryptoData (st (invoke MoreSamples.net_offline true Sample.world1))
  = cryptoData (st Sample.world1) /\
  lastFetchTime (st (invoke MoreSamples.net_offline true Sample.world1))
  = lastFetchTime (st Sample.world1).
Proof.
  split; [reflexivity|]. split; [reflexivity|]. split; [reflexivity|].
  apply (network_failure_reported MoreSamples.net_offline true Sample.world1
           "Failed to fetch"); reflexivity.
Defined.

(** ** The fetcher: one call after another *)

Lemma success_state (net : nat -> Exchange) (m : bool) (w : World) (k : nat)
    (data : list CryptoData) :
  throttled (useCallback (st w)) m (clock w) = false ->
  fetch_succeeds net (sent w) 3 k data ->
  cryptoData (st (invoke net m w)) = data /\
  lastFetchTime (st (invoke net m w)) = clock w + 18000 * Z.of_nat k /\
  clock (invoke net m w)
  = clock w + 18000 * Z.of_nat k + Z.of_N (latency (net (sent w + k)%nat)) /\
  in_time (net (sent w + k)%nat).
Proof.
  intros Hgo (Hk & Hto & Hb).
  assert (Hin : in_time (net (sent w + k)%nat)).
  { unfold in_time. destruct (timer_fires _) eqn:E; [|reflexivity].
    rewrite (try_block_abort _ E) in Hb. discriminate. }
  unfold invoke, MAX_RETRIES.
  destruct (fetch_settles net _ m 3 k (fun w => w) w Hk quiet_id Hgo Hto Hin)
    as (_ & _ & _ & Hd).
  rewrite Hb in Hd. destruct Hd as [Hd Hf].
  rewrite (fetch_settles_clock net _ m 3 k (fun w => w) w Hk quiet_id Hgo Hto Hin).
  rewrite (duration_in_time _ Hin). auto.
Qed.

(** X16: After a call that succeeded with a list that is not empty, an automatic
    call made as soon as it has ended (the effect runs again because its
    dependencies changed) is skipped when the successful request took less
    than 10 s, and sends a request at once when it took 10 s or more. *)
Theorem followup_call_after_success (net : nat -> Exchange) (m : bool) (w : World)
    (k : nat) (data : list CryptoData)
    (Hgo : throttled (useCallback (st w)) m (clock w) = false)
    (Hok : fetch_succeeds net (sent w) 3 k data)
    (Hdata : data <> []) :
  (Z.of_N (latency (net (sent w + k)%nat)) < 10000 ->
     autoFetch net (invoke net m w) = invoke net m w) /\
  (10000 <= Z.of_N (latency (net (sent w + k)%nat)) ->
     requested (invoke net m w) (autoFetch net (invoke net m w))).
Proof.
  destruct (success_state net m w k data Hgo Hok) as (Hd & Hf & Hc & _).
  assert (Hth : throttled (useCallback (st (invoke net m w))) false (clock (invoke net m w))
                = (Z.of_N (latency (net (sent w + k)%nat)) <? 10000)%Z).
  { unfold throttled, useCallback. simpl. rewrite Hd, Hf, Hc.
    destruct data as [|x data]; [congruence|]. simpl. rewrite andb_true_r.
    f_equal. lia. }
  set (w1 := invoke net m w) in *.
  split; intros HL; unfold autoFetch, invoke.
  - rewrite fetch_skipped; [reflexivity|]. rewrite Hth. now apply Z.ltb_lt.
  - apply fetch_requested; [apply quiet_id|].
    rewrite Hth. now apply Z.ltb_ge.
Qed.

Lemma sample_late_succeeds :
  fetch_succeeds Sample.net_late (sent Sample.world0) 3 1 Sample.listing.
Proof.
  repeat split.
  - lia.
  - intros i Hi. assert (i = 0)%nat by lia. subst i. reflexivity.
Defined.

Lemma followup_call_after_success_witness :
  throttled (useCallback (st Sample.world0)) false (clock Sample.world0) = false /\
  fetch_succeeds Sample.net_late (sent Sample.world0) 3 1 Sample.listing /\
  Sample.listing <> [] /\
  (Z.of_N (latency (Sample.net_late (sent Sample.world0 + 1)%nat)) < 10000 ->
     autoFetch Sample.net_late (invoke Sample.net_late false Sample.world0)
     = invoke Sample.net_late false Sample.world0) /\
  (10000 <= Z.of_N (latency (Sample.net_late (sent Sample.world0 + 1)%nat)) ->
     requested (invoke Sample.net_late false Sample.world0)
       (autoFetch Sample.net_late (invoke Sample.net_late false Sample.world0))).
Proof.
  assert (Hd : Sample.listing <> []) by discriminate.
  split; [reflexivity|]. split; [exact sample_late_succeeds|]. split; [exact Hd|].
  apply (followup_call_after_success Sample.net_late false Sample.world0 1 Sample.listing
           eq_refl sample_late_succeeds Hd).
Defined.

(** X17: After a call that succeeded with an empty list the guard never holds:
    an automatic call made right afterwards sends a request at once, however
    recent the success is. *)
Theorem empty_listing_is_fetched_again (net : nat -> Exchange) (m : bool) (w : World)
    (k : nat)
    (Hgo : throttled (useCallback (st w)) m (clock w) = false)
    (Hok : fetch_succeeds net (sent w) 3 k []) :
  cryptoData (st (invoke net m w)) = [] /\
  lastFetchTime (st (invoke net m w)) = clock w + 18000 * Z.of_nat k /\
  requested (invoke net m w) (autoFetch net (invoke net m w)).
Proof.
  destruct (success_state net m w k [] Hgo Hok) as (Hd & Hf & _).
  split; [exact Hd|]. split; [exact Hf|].
  set (w1 := invoke net m w) in *.
  unfold autoFetch, invoke. apply fetch_requested; [apply quiet_id|].
  unfold throttled, useCallback. simpl. rewrite Hd. simpl. apply andb_false_r.
Qed.

Lemma sample_nothing_succeeds :
  fetch_succeeds MoreSamples.net_nothing (sent Sample.world0) 3 0 [].
Proof.
  repeat split.
  - lia.
  - intros i Hi. lia.
Defined.

Lemma empty_listing_is_fetched_again_witness :
  throttled (useCallback (st Sample.world0)) false (clock Sample.world0) = false /\
  fetch_succeeds MoreSamples.net_nothing (sent Sample.world0) 3 0 [] /\
  cryptoData (st (invoke MoreSamples.net_nothing false Sample.world0)) = [] /\
  lastFetchTime (st (invoke MoreSamples.net_nothing false Sample.world0))
  = clock Sample.world0 + 18000 * Z.of_nat 0 /\
  requested (invoke MoreSamples.net_nothing false Sample.world0)
    (autoFetch MoreSamples.net_nothing (invoke MoreSamples.net_nothing false Sample.world0)).
Proof.
  split; [reflexivity|]. split; [exact sample_nothing_succeeds|].
  apply (empty_listing_is_fetched_again MoreSamples.net_nothing false Sample.world0 0
           eq_refl sample_nothing_succeeds).
Defined.

(** X18: When a manual refresh has succeeded, the button it was started from is
    disabled at that moment exactly when the successful request took less
    than 10 s: the 10 s count from the start of the request. *)
Theorem button_after_manual_refresh (net : nat -> Exchange) (w : World) (k : nat)
    (data : list CryptoData)
    (Hok : fetch_succeeds net (sent w) 3 k data) :
  refreshDisabled (st (manualFetch net w)) (clock (manualFetch net w))
  = (Z.of_N (latency (net (sent w + k)%nat)) <? 10000)%Z.
Proof.
  assert (Hgo : throttled (useCallback (st w)) true (clock w) = false) by reflexivity.
  destruct (success_state net true w k data Hgo Hok) as (_ & Hf & Hc & _).
  destruct (fetch_frame net (useCallback (st w)) true 3 (fun w => w) w
              (flag_only_id true) Hgo) as ((Hr & _) & _).
  unfold manualFetch, refreshDisabled. rewrite Hf, Hc.
  unfold invoke, MAX_RETRIES. rewrite Hr. simpl. f_equal. lia.
Qed.

Lemma button_after_manual_refresh_witness :
  fetch_succeeds Sample.net_late (sent Sample.world0) 3 1 Sample.listing /\
  refreshDisabled (st (manualFetch Sample.net_late Sample.world0))
                  (clock (manualFetch Sample.net_late Sample.world0))
  = (Z.of_N (latency (Sample.net_late (sent Sample.world0 + 1)%nat)) <? 10000)%Z.
Proof.
  split; [exact sample_late_succeeds|].
  apply (button_after_manual_refresh Sample.net_late Sample.world0 1 Sample.listing
           sample_late_succeeds).
Defined.

(** ** The scheduler: bookkeeping *)

Section SchedulerBookkeeping.

Import Scheduler.

Lemma periods_init : periods_ok init.
Proof. intros t p H. simpl in H. now rewrite lookup_empty in H. Qed.

(** X19: Whatever happens, every interval the scheduler has registered fires
    every 60 s. *)
Theorem intervals_every_60s (evs : list Ev) : periods_ok (run evs init).
Proof. apply run_periods, periods_init. Qed.

Lemma inv_init : sched_inv init.
Proof.
  split; [|split]; simpl.
  - intros t p H. now rewrite lookup_empty in H.
  - intros k i t H. now rewrite lookup_nil in H.
  - intros j k i i' t H. now rewrite lookup_nil in H.
Qed.

Lemma inv_step (s : Sys) (e : Ev) : sched_inv s -> sched_inv (step s e).
Proof.
  intros (Ha & Hb & Hc). destruct e as [|k|k|t]; simpl.
  - (* Run *)
    assert (Hnew : forall j i t, (instances s ++ [mkInstance None true]) !! j = Some i ->
                     intervalId i = Some t -> instances s !! j = Some i).
    { intros j i t H Hi. apply lookup_app_Some in H as [H|[_ H]]; [exact H|].
      apply list_lookup_singleton_Some in H as [_ <-]. discriminate. }
    split; [|split]; simpl.
    + exact Ha.
    + intros j i t H Hi. exact (Hb _ _ _ (Hnew _ _ _ H Hi) Hi).
    + intros j k i i' t Hj Hk Hi Hi'.
      exact (Hc _ _ _ _ _ (Hnew _ _ _ Hj Hi) (Hnew _ _ _ Hk Hi') Hi Hi').
  - (* Settled *)
    destruct (instances s !! k) as [[iid []]|] eqn:E;
      try (split; [|split]; assumption).
    assert (Hlt : (k < length (instances s))%nat) by (eapply lookup_lt_Some; eassumption).
    assert (Hold : forall j i t,
               <[k := mkInstance (Some (next_id s)) false]> (instances s) !! j = Some i ->
               intervalId i = Some t ->
               (j = k /\ t = next_id s /\ pending i = false) \/
               (j <> k /\ instances s !! j = Some i)).
    { intros j i t H Hi. destruct (decide (j = k)) as [->|Hne].
      - rewrite list_lookup_insert_eq in H by exact Hlt.
        injection H as <-. simpl in Hi. injection Hi as <-. left. auto.
      - rewrite list_lookup_insert_ne in H by congruence. right. auto. }
    split; [|split]; simpl.
    + intros t p H. destruct (decide (next_id s = t)) as [<-|Hne]; [lia|].
      rewrite lookup_insert_ne in H by exact Hne.
      pose proof (Ha _ _ H). lia.
    + intros j i t H Hi.
      destruct (Hold _ _ _ H Hi) as [(_ & -> & Hp)|(_ & H1)]; [split; [lia|exact Hp]|].
      destruct (Hb _ _ _ H1 Hi) as [B1 B2]. split; [lia | exact B2].
    + intros j k' i i' t Hj Hk Hi Hi'.
      destruct (Hold _ _ _ Hj Hi) as [(Ej & Et & _)|(Hjn & Hj1)];
        destruct (Hold _ _ _ Hk Hi') as [(Ek & Et' & _)|(Hkn & Hk1)].
      * congruence.
      * subst t. pose proof (proj1 (Hb _ _ _ Hk1 Hi')). lia.
      * subst t. pose proof (proj1 (Hb _ _ _ Hj1 Hi)). lia.
      * exact (Hc _ _ _ _ _ Hj1 Hk1 Hi Hi').
  - (* Cleanup *)
    destruct (instances s !! k) as [[[t|] a]|] eqn:E;
      try (split; [|split]; assumption).
    split; [|split]; simpl; try assumption.
    intros t' p H. destruct (decide (t = t')) as [->|Hne].
    + now rewrite lookup_delete_eq in H.
    + rewrite lookup_delete_ne in H by exact Hne. exact (Ha _ _ H).
  - (* Tick *)
    destruct (timers s !! t); split; [|split| |split]; simpl; assumption.
Qed.

Lemma inv_run (evs : list Ev) (s : Sys) : sched_inv s -> sched_inv (run evs s).
Proof.
  revert s. induction evs as [|e evs IH]; intros s H; [exact H|].
  simpl. apply IH, inv_step, H.
Qed.

(** X20: In every state the scheduler can reach, the cleanup of one run of the
    effect cancels at most the interval of that run: the interval held by any
    other run stays as it is. *)
Theorem cleanup_is_local (evs : list Ev) (j k : nat) (i : Instance) (t : positive)
    (Hj : instances (run evs init) !! j = Some i)
    (Hi : intervalId i = Some t)
    (Hne : j <> k) :
  timers (step (run evs init) (Cleanup k)) !! t = timers (run evs init) !! t.
Proof.
  destruct (inv_run evs init inv_init) as (_ & _ & Hc).
  set (s := run evs init) in *.
  simpl. destruct (instances s !! k) as [[[t'|] a]|] eqn:E; try reflexivity.
  simpl. apply lookup_delete_ne. intros ->.
  apply Hne. exact (Hc _ _ _ _ _ Hj E Hi eq_refl).
Qed.

Lemma cleanup_is_local_witness :
  instances (run [Run; Settled 0; Run; Settled 1] init) !! 0%nat
  = Some (mkInstance (Some 1%positive) false) /\
  intervalId (mkInstance (Some 1%positive) false) = Some 1%positive /\
  0%nat <> 1%nat /\
  timers (step (run [Run; Settled 0; Run; Settled 1] init) (Cleanup 1)) !! 1%positive
  = timers (run [Run; Settled 0; Run; Settled 1] init) !! 1%positive.
Proof.
  assert (H : 0%nat <> 1%nat) by discriminate.
  split; [reflexivity|]. split; [reflexivity|]. split; [exact H|].
  apply (cleanup_is_local [Run; Settled 0; Run; Settled 1] 0 1
           (mkInstance (Some 1%positive) false) 1%positive eq_refl eq_refl H).
Defined.

Lemma run_app (a b : list Ev) (s : Sys) : run (a ++ b) s = run b (run a s).
Proof. unfold run. apply fold_left_app. Qed.

Lemma run_ticks (n : nat) (t : positive) (s : Sys) :
  is_Some (timers s !! t) ->
  run (repeat (Tick t) n) s
  = mkSys (timers s) (next_id s) (instances s) (calls s ++ repeat (TimerCall t) n).
Proof.
  revert s. induction n as [|n IH]; intros s [p Hp].
  - simpl. rewrite app_nil_r. now destruct s.
  - simpl repeat. change (run (Tick t :: repeat (Tick t) n) s)
      with (run (repeat (Tick t) n) (step s (Tick t))).
    simpl step. rewrite Hp. rewrite IH by (simpl; eauto).
    simpl. now rewrite <- app_assoc.
Qed.

Lemma lifecycle_from (cycles : list nat) :
  forall k s,
    timers s = ∅ -> next_id s = Pos.of_succ_nat k -> length (instances s) = k ->
    timers (run (lifecycle k cycles) s) = ∅ /\
    calls (run (lifecycle k cycles) s) = calls s ++ lifecycle_calls k cycles.
Proof.
  induction cycles as [|n cycles IH]; intros k s Ht Hn Hl.
  - simpl. split; [exact Ht | now rewrite app_nil_r].
  - change (lifecycle k (n :: cycles))
      with ((Run :: Settled k :: repeat (Tick (Pos.of_succ_nat k)) n ++ [Cleanup k])
              ++ lifecycle (S k) cycles).
    change (lifecycle_calls k (n :: cycles))
      with ((InitialCall k :: repeat (TimerCall (Pos.of_succ_nat k)) n)
              ++ lifecycle_calls (S k) cycles).
    rewrite run_app.
    change (run (Run :: Settled k :: repeat (Tick (Pos.of_succ_nat k)) n ++ [Cleanup k]) s)
      with (run (repeat (Tick (Pos.of_succ_nat k)) n ++ [Cleanup k])
              (step (step s Run) (Settled k))).
    rewrite run_app.
    assert (Hk : (instances s ++ [mkInstance None true]) !! k
                 = Some (mkInstance None true)).
    { rewrite lookup_app_r by lia. now rewrite Hl, Nat.sub_diag. }
    set (s2 := step (step s Run) (Settled k)).
    assert (E2 : s2 = mkSys (<[Pos.of_succ_nat k := AUTO_REFRESH_INTERVAL]> ∅)
                        (Pos.succ (Pos.of_succ_nat k))
                        (<[k := mkInstance (Some (Pos.of_succ_nat k)) false]>
                           (instances s ++ [mkInstance None true]))
                        (calls s ++ [InitialCall k])).
    { unfold s2. simpl. rewrite Hk, Hn, Ht, Hl. reflexivity. }
    rewrite run_ticks by (rewrite E2; simpl; rewrite lookup_insert_eq; eauto).
    rewrite E2. simpl.
    rewrite list_lookup_insert_eq by (rewrite length_app; simpl; lia).
    simpl. rewrite delete_insert_eq, delete_empty.
    match goal with |- context [run (lifecycle (S k) cycles) ?s3] =>
      destruct (IH (S k) s3) as (I1 & I2) end.
    + reflexivity.
    + reflexivity.
    + simpl. rewrite length_insert, length_app. simpl. lia.
    + split; [exact I1|]. rewrite I2. simpl. now rewrite <- !app_assoc.
Qed.

(** X21: When every run of the effect settles before it is cleaned up, no
    interval outlives its run: after any number of such runs no interval is
    active, and the calls made are, run by run, one initial call followed by
    one call for each time the interval fired. *)
Theorem orderly_lifecycle_leaves_no_interval (cycles : list nat) :
  timers (run (lifecycle 0 cycles) init) = ∅ /\
  calls (run (lifecycle 0 cycles) init) = lifecycle_calls 0 cycles.
Proof. apply (lifecycle_from cycles 0 init); reflexivity. Qed.

End SchedulerBookkeeping.
